(** * TextBatch: label placement and the shared glyph context

    A shallow embedding of [core/src/style/textBatch.cpp] (tangram-es),
    and the properties its specification states about it.

    - Part I models the placement algorithm ([add], [buildPoint],
      [buildLine], [buildPolygon]) as functions that return the sequence of
      [addTextLabel] requests they issue, or the fault they run into.
    - Part II models the methods that talk to the shared font context
      ([init], the destructor, [getVerticesSize], [genTextID], [rasterize],
      [pushBuffer], [transformID], [getBBox], [compile], [prepare]) in a
      state-and-error monad whose state carries the event trace.
    - Parts III and IV state and prove the properties of the placement,
      Parts V and VI those of the batch.

    Machine model: [int] is 32 bits, [size_t] is 64 bits, [float] is IEEE
    binary32 (the Standard Library's [SpecFloat] at precision 24, every
    operation rounded to binary32). A [Point] is a [glm::vec3], a [Line] a
    vector of points, a [Polygon] a vector of lines (rings).

    What [textBatch.cpp] calls but does not define is either taken as a
    parameter (the glyph library, [Label::pushTransform]) or modelled from
    the specification ([Properties::getString], the mesh, [FontContext]);
    the definitions concerned say so. *)

From Stdlib Require Import ZArith Bool Lia.
From Stdlib Require Import Floats.SpecFloat.
From stdpp Require Import base option strings gmap list.

Local Open Scope Z_scope.

(* ===================================================================== *)
(** * Part 0: machine integers, floats, faults                            *)
(* ===================================================================== *)

(** ** Integers *)

Definition INT_MAX : Z := 2 ^ 31 - 1.
Definition SIZE_MAX : Z := 2 ^ 64 - 1.

(** Conversion of an integer value to [size_t]: reduction modulo 2^64. *)
Definition to_size (z : Z) : Z := z mod 2 ^ 64.

(** Conversion of an integer value to [int]: two's complement wrap. *)
Definition to_int (z : Z) : Z := (z + 2 ^ 31) mod 2 ^ 32 - 2 ^ 31.

(** [a + b] and [a - b] computed in [size_t]. *)
Definition size_add (a b : Z) : Z := to_size (a + b).
Definition size_sub (a b : Z) : Z := to_size (a - b).

(** Ceiling of [a / b] for a positive divisor. *)
Definition cdiv (a b : Z) : Z := (a + b - 1) / b.

(** ** binary32 floats *)

Module F32.
Definition prec : Z := 24.
Definition emax : Z := 128.

Abbreviation float := spec_float.

Definition zero : float := S754_zero false.
Definition add : float -> float -> float := SFadd prec emax.
Definition sub : float -> float -> float := SFsub prec emax.
Definition mul : float -> float -> float := SFmul prec emax.
Definition div : float -> float -> float := SFdiv prec emax.
Definition sqrt : float -> float := SFsqrt prec emax.
Definition ltb : float -> float -> bool := SFltb.
Definition leb : float -> float -> bool := SFleb.

(** [static_cast<float>(n)] for an integer [n]: round to nearest even. *)
Definition of_int (n : Z) : float := binary_normalize prec emax n 0 false.

Definition is_nan (f : float) : bool :=
  match f with S754_nan => true | _ => false end.

(** Zeros and finite values: neither NaN nor an infinity. *)
Definition is_finite (f : float) : bool :=
  match f with S754_zero _ | S754_finite _ _ _ => true | _ => false end.

(** Zeros, positive finite values and plus infinity. *)
Definition not_negative (f : float) : bool :=
  match f with
  | S754_zero _ | S754_finite false _ _ | S754_infinity false => true
  | _ => false
  end.

(** A number (not NaN) whose sign bit is [s]. *)
Definition signed_as (s : bool) (f : float) : Prop :=
  match f with
  | S754_zero s' | S754_infinity s' | S754_finite s' _ _ => s' = s
  | S754_nan => False
  end.

Definition one : float := of_int 1.
Definition two : float := of_int 2.
Definition half : float := S754_finite false 8388608 (-24).
End F32.

Abbreviation float := spec_float.

(** ** Faults

    What the C++ program can run into instead of returning. *)
Inductive Fault : Type :=
  | OutOfBounds      (* operator[] past the end of a vector *)
  | SignedOverflow   (* overflow of an [int] counter *)
  | LengthError      (* std::vector::resize beyond max_size *)
  | Deadlock.        (* locking the context mutex while it is held *)

Inductive outcome (A : Type) : Type :=
  | Ok (a : A)
  | Failed (f : Fault)
  | OutOfFuel.
Arguments Ok {A} a.
Arguments Failed {A} f.
Arguments OutOfFuel {A}.

#[global] Instance outcome_ret : MRet outcome := fun A a => Ok a.
#[global] Instance outcome_bind : MBind outcome := fun A B f m =>
  match m with
  | Ok a => f a
  | Failed e => Failed e
  | OutOfFuel => OutOfFuel
  end.

(** Left-to-right iteration of a fallible body over a container
    (a range-based [for] loop). *)
Fixpoint foldM {A B : Type} (f : B -> A -> outcome B) (l : list A) (b : B)
  : outcome B :=
  match l with
  | [] => Ok b
  | a :: l' => b' ← f b a; foldM f l' b'
  end.

(** [v[i]] on a [std::vector]; reading past the end is a fault. *)
Definition vec_at {A : Type} (v : list A) (i : Z) : outcome A :=
  match v !! Z.to_nat i with
  | Some a => Ok a
  | None => Failed OutOfBounds
  end.

(* ===================================================================== *)
(** * Part I: placement                                                   *)
(* ===================================================================== *)

(** ** glm vectors *)

Module Vec2.
Record t : Type := mk { x : float; y : float }.
Definition sub (a b : t) : t :=
  {| x := F32.sub (x a) (x b); y := F32.sub (y a) (y b) |}.
Definition mul (a b : t) : t :=
  {| x := F32.mul (x a) (x b); y := F32.mul (y a) (y b) |}.
(** [glm::dot]: componentwise product, then [tmp.x + tmp.y]. *)
Definition dot (a b : t) : float :=
  let tmp := mul a b in F32.add (x tmp) (y tmp).
(** [glm::length(v) = sqrt(dot(v, v))]. *)
Definition length (v : t) : float := F32.sqrt (dot v v).
End Vec2.

Module Vec3.
Record t : Type := mk { x : float; y : float; z : float }.
(** The default constructor of glm vectors zero-initialises. *)
Definition default : t := {| x := F32.zero; y := F32.zero; z := F32.zero |}.
(** [v /= n] for an [int] [n]: each component is divided by
    [static_cast<float>(n)]. *)
Definition div_int (v : t) (n : Z) : t :=
  {| x := F32.div (x v) (F32.of_int n);
     y := F32.div (y v) (F32.of_int n);
     z := F32.div (z v) (F32.of_int n) |}.
(** [glm::vec2(v)]: drops [z]. *)
Definition to_vec2 (v : t) : Vec2.t := {| Vec2.x := x v; Vec2.y := y v |}.
End Vec3.

Abbreviation vec2 := Vec2.t.
Abbreviation vec3 := Vec3.t.

(** ** Tile features *)

Abbreviation Point := Vec3.t (only parsing).
Abbreviation Line := (list Vec3.t) (only parsing).
Abbreviation Polygon := (list (list Vec3.t)) (only parsing).

(** A feature's properties: keys mapped to string values. *)
Abbreviation Properties := (gmap string string) (only parsing).

(** Modelled from the spec: [Properties::getString] is declared outside
    [textBatch.cpp] (the spec files it under "property lookup").
    [getString(key, out)] reports whether [key] has a string entry and, when
    it has one, stores the entry's value in [out]; the value may be any
    string, the empty one included. *)
Definition getString (key : string) (_props : Properties)
  : option string := _props !! key.

Inductive GeometryType : Type := unknown | points | lines | polygons.

(** A feature; its geometry fields [points], [lines] and [polygons] carry
    the prefix [f_] here, to tell them from the geometry types. *)
Record Feature : Type := {
  geometryType : GeometryType;
  f_points : list Point;
  f_lines : list Line;
  f_polygons : list Polygon;
  props : Properties
}.

(** ** Label requests

    [addTextLabel(batch, tile, {a1, a2}, text, type)] followed by
    [addLabel]: the batch and the tile are passed through unchanged, so a
    request is recorded by its anchors, text and type. *)

Module Label.
Inductive Type_ : Type := point | line.
End Label.

Record TextLabel : Type := {
  anchor1 : vec2;
  anchor2 : vec2;
  text : string;
  type : Label.Type_
}.

(** ** buildPoint *)

Definition buildPoint (_point : Point) (_props : Properties)
  : outcome (list TextLabel) :=
  match getString "name" _props with
  | Some name =>
      Ok [ {| anchor1 := Vec3.to_vec2 _point; anchor2 := Vec3.to_vec2 _point;
              text := name; type := Label.point |} ]
  | None => Ok []
  end.

(** ** buildLine *)

(** [float minLength = 0.15]: the binary32 nearest to 0.15,
    10066330 * 2^-26 = 0x3E19999A. *)
Definition minLength : float := S754_finite false 10066330 (-26).

(** State of the sampling loop: the requests issued so far, and (ghost) the
    indices [i] at which the loop body ran. *)
Record LineState : Type := {
  ls_labels : list TextLabel;
  ls_sampled : list Z
}.

(** [int skipOffset = floor(lineLength / 2)] with
    [int lineLength = _line.size()]: the division is the truncating
    division of [int], and [floor] of the resulting integer is itself. *)
Definition lineLength_of (size : Z) : Z := to_int size.
Definition skipOffset_of (size : Z) : Z := Z.quot (lineLength_of size) 2.

(** One run of the loop body at index [i]. *)
Definition buildLine_body (_line : Line) (name : string) (i : Z)
    (st : LineState) : outcome LineState :=
  a ← vec_at _line i;
  b ← vec_at _line (size_add i 1);
  let p1 := Vec3.to_vec2 a in
  let p2 := Vec3.to_vec2 b in
  let p1p2 := Vec2.sub p2 p1 in
  let length := Vec2.length p1p2 in
  if F32.ltb length minLength then
    Ok {| ls_labels := ls_labels st; ls_sampled := ls_sampled st ++ [i] |}
  else
    Ok {| ls_labels := ls_labels st ++
            [ {| anchor1 := p1; anchor2 := p2; text := name;
                 type := Label.line |} ];
          ls_sampled := ls_sampled st ++ [i] |}.

(** [for (size_t i = 0; i < _line.size() - 1; i += skipOffset)]. *)
Fixpoint buildLine_loop (fuel : nat) (_line : Line) (name : string)
    (skipOffset : Z) (i : Z) (st : LineState) : outcome LineState :=
  match fuel with
  | O => OutOfFuel
  | S fuel' =>
      if i <? size_sub (Z.of_nat (length _line)) 1 then
        st' ← buildLine_body _line name i st;
        buildLine_loop fuel' _line name skipOffset
          (size_add i (to_size skipOffset)) st'
      else Ok st
  end.

Definition buildLine (fuel : nat) (_line : Line)
    (_props : Properties) : outcome LineState :=
  match getString "name" _props with
  | Some name =>
      let skipOffset := skipOffset_of (Z.of_nat (length _line)) in
      buildLine_loop fuel _line name skipOffset 0
        {| ls_labels := []; ls_sampled := [] |}
  | None => Ok {| ls_labels := []; ls_sampled := [] |}
  end.

(** ** buildPolygon *)

(** Body of the inner loop: [centroid.x += p.x; centroid.y += p.y; n++].
    Incrementing an [int] that holds INT_MAX is a signed overflow. *)
Definition centroid_step (acc : vec3 * Z) (p : Point) : outcome (vec3 * Z) :=
  let '(centroid, n) := acc in
  if n <? INT_MAX then
    Ok ({| Vec3.x := F32.add (Vec3.x centroid) (Vec3.x p);
           Vec3.y := F32.add (Vec3.y centroid) (Vec3.y p);
           Vec3.z := Vec3.z centroid |}, n + 1)
  else Failed SignedOverflow.

Definition buildPolygon (_polygon : Polygon)
    (_props : Properties) : outcome (list TextLabel) :=
  match getString "name" _props with
  | Some name =>
      '(centroid, n) ← foldM (fun acc l => foldM centroid_step l acc)
                         _polygon (Vec3.default, 0);
      let centroid := Vec3.div_int centroid n in
      Ok [ {| anchor1 := Vec3.to_vec2 centroid;
              anchor2 := Vec3.to_vec2 centroid;
              text := name; type := Label.point |} ]
  | None => Ok []
  end.

(** ** add *)

(** Runs [build] on every element, collecting the requests in order. *)
Definition for_each {A : Type} (build : A -> outcome (list TextLabel))
    (l : list A) : outcome (list TextLabel) :=
  foldM (fun acc a => ls ← build a; Ok (acc ++ ls)) l [].

Definition add (fuel : nat) (_feature : Feature) : outcome (list TextLabel) :=
  match geometryType _feature with
  | points =>
      for_each (fun point => buildPoint point (props _feature))
        (f_points _feature)
  | lines =>
      for_each (fun line =>
                  st ← buildLine fuel line (props _feature);
                  Ok (ls_labels st))
        (f_lines _feature)
  | polygons =>
      for_each (fun polygon => buildPolygon polygon (props _feature))
        (f_polygons _feature)
  | unknown => Ok []
  end.

(* ===================================================================== *)
(** * Part II: the batch and the shared font context                      *)
(* ===================================================================== *)

(** Handles of the glyph library ([fsuint]). *)
Abbreviation fsuint := Z (only parsing).

(** ** Vertices *)

Module BufferVert.
(** [BufferVert::State]: what [transformID] hands to [glfonsTransform]. *)
Record State : Type := {
  screenPos : vec2;
  alpha : float;
  rotation : float
}.
Record t : Type := { pos : vec2; uv : vec2; state : State }.
Definition zero2 : vec2 := {| Vec2.x := F32.zero; Vec2.y := F32.zero |}.
(** A value-initialised vertex, as [std::vector::resize] creates them. *)
Definition default : t :=
  {| pos := zero2; uv := zero2;
     state := {| screenPos := zero2; alpha := F32.zero;
                 rotation := F32.zero |} |}.
End BufferVert.

(** ** The mesh *)

Module Mesh.
(** The vertex arrays the mesh was handed so far, its vertex count, and
    the number of times its GPU buffer was compiled. *)
Record t : Type := {
  vertices : list (list BufferVert.t);
  nVertices : Z;
  compiles : nat
}.

(** A mesh as [std::make_shared<TypedMesh<BufferVert>>] builds it. *)
Definition empty : t := {| vertices := []; nVertices := 0; compiles := 0 |}.

(** Modelled from the spec: [TypedMesh::addVertices] is declared outside
    [textBatch.cpp]. The mesh takes ownership of the vertex array it is
    handed and adds it to the arrays it already holds. *)
Definition addVertices (vs : list BufferVert.t) (m : t) : t :=
  {| vertices := vertices m ++ [vs];
     nVertices := nVertices m + Z.of_nat (length vs);
     compiles := compiles m |}.

(** Modelled from the spec: [numVertices() -> int], the number of vertices
    the mesh holds. *)
Definition numVertices (m : t) : Z := nVertices m.

(** Modelled from the spec: [compileVertexBuffer()] builds the GPU buffer
    from the vertices handed to the mesh; the model counts the builds. *)
Definition compileVertexBuffer (m : t) : t :=
  {| vertices := vertices m; nVertices := nVertices m;
     compiles := S (compiles m) |}.
End Mesh.

(** ** The glyph library

    The [glfons*] functions belong to an external library. They are taken
    as an interface over an abstract library state; the functions that work
    on the bound buffer receive its handle. The queries ([glfonsVerticesSize],
    [glfonsGetBBox], [glfonsVertices]) read the library state and leave it
    as it is: what they report changes only through the other calls. *)
Class Glfons (FONS : Type) : Type := {
  glfonsBufferCreate : FONS -> fsuint * FONS;
  glfonsBufferDelete : fsuint -> FONS -> FONS;
  glfonsVerticesSize : fsuint -> FONS -> Z;
  glfonsGenText : fsuint -> FONS -> fsuint * FONS;
  (** The result is [true] when the library answers [GLFONS_VALID]. *)
  glfonsRasterize : fsuint -> fsuint -> string -> FONS -> bool * FONS;
  glfonsUpdateBuffer : fsuint -> Mesh.t -> FONS -> Mesh.t * FONS;
  glfonsTransform : fsuint -> fsuint -> float -> float -> float -> float ->
                    FONS -> FONS;
  glfonsGetBBox : fsuint -> fsuint -> FONS -> float * float * float * float;
  (** Fills the caller's array and reports whether it did. *)
  glfonsVertices : fsuint -> FONS -> list BufferVert.t ->
                   bool * list BufferVert.t
}.

(** ** Events *)

Inductive GlfonsCall : Type :=
  | BufferCreate
  | BufferDelete
  | VerticesSize
  | GenText
  | Rasterize
  | UpdateBuffer
  | Transform
  | GetBBox
  | Vertices (size : nat).   (* with the size of the array passed *)

Inductive Event : Type :=
  | EvLock
  | EvUnlock
  | EvBind (buffer : fsuint)
  | EvUnbind
  | EvGlfons (c : GlfonsCall)
  | EvAddVertices (n : nat)
  | EvCompileVertexBuffer.

(** ** Observations on traces *)



(** The lock discipline of section 4.2, as a monitor over traces: the lock
    is taken only when free and released only when held, a buffer is bound
    and unbound only under the lock, and a call into the glyph library
    happens only under the lock; a call that works on the bound buffer
    needs a buffer bound as well. *)
Record Monitor : Type := { mon_locked : bool; mon_bound : bool }.

Definition needs_buffer (c : GlfonsCall) : bool :=
  match c with
  | BufferCreate | BufferDelete => false
  | _ => true
  end.

Definition monitor_step (m : Monitor) (e : Event) : option Monitor :=
  match e with
  | EvLock =>
      if mon_locked m then None
      else Some {| mon_locked := true; mon_bound := mon_bound m |}
  | EvUnlock =>
      if mon_locked m && negb (mon_bound m)
      then Some {| mon_locked := false; mon_bound := false |}
      else None
  | EvBind _ =>
      if mon_locked m && negb (mon_bound m)
      then Some {| mon_locked := true; mon_bound := true |}
      else None
  | EvUnbind =>
      if mon_locked m && mon_bound m
      then Some {| mon_locked := true; mon_bound := false |}
      else None
  | EvGlfons c =>
      if mon_locked m && (mon_bound m || negb (needs_buffer c))
      then Some m
      else None
  | EvAddVertices _ | EvCompileVertexBuffer => Some m
  end.

Fixpoint monitor (m : Monitor) (tr : list Event) : option Monitor :=
  match tr with
  | [] => Some m
  | e :: tr' =>
      match monitor_step m e with
      | Some m' => monitor m' tr'
      | None => None
      end
  end.

Definition lock_free : Monitor := {| mon_locked := false; mon_bound := false |}.

(** A trace that starts and ends with the lock free and never leaves the
    discipline in between. *)
Definition well_locked (tr : list Event) : bool :=
  match monitor lock_free tr with
  | Some m => negb (mon_locked m) && negb (mon_bound m)
  | None => false
  end.

Section Batch.
Context {FONS : Type} `{!Glfons FONS}.

(** Labels belong to the style layer. A label is taken abstractly, with the
    [transformID] calls its [pushTransform(batch)] issues and the label it
    leaves behind. *)
Context {Label : Type}.
Context (pushTransform_calls :
           Label -> list (fsuint * BufferVert.State) * Label).

(** ** State *)

(** The shared [FontContext]: the library state, the mutex, and the buffer
    currently bound. *)
Record FontContext : Type := {
  fons : FONS;
  locked : bool;
  bound : option fsuint
}.

Record TextBatch : Type := {
  m_fsBuffer : fsuint;
  m_dirtyTransform : bool;
  m_mesh : Mesh.t;
  m_labels : list Label
}.

Record World : Type := {
  ctx : FontContext;      (* the object behind [m_fontContext] *)
  self : TextBatch;       (* this batch *)
  trace : list Event
}.

(** ** The monad: state passing with faults

    A computation always hands back the world, also when it ends in a
    fault, so that the state of the lock at a fault can be observed. *)

Definition M (A : Type) : Type := World -> outcome A * World.

#[local] Instance M_ret : MRet M := fun A a w => (Ok a, w).
#[local] Instance M_bind : MBind M := fun A B f m w =>
  match m w with
  | (Ok a, w') => f a w'
  | (Failed e, w') => (Failed e, w')
  | (OutOfFuel, w') => (OutOfFuel, w')
  end.

Definition fail {A : Type} (e : Fault) : M A := fun w => (Failed e, w).

Definition emit (e : Event) : M unit := fun w =>
  (Ok tt, {| ctx := ctx w; self := self w; trace := trace w ++ [e] |}).

Definition get_ctx : M FontContext := fun w => (Ok (ctx w), w).
Definition put_ctx (c : FontContext) : M unit := fun w =>
  (Ok tt, {| ctx := c; self := self w; trace := trace w |}).
Definition get_self : M TextBatch := fun w => (Ok (self w), w).
Definition put_self (b : TextBatch) : M unit := fun w =>
  (Ok tt, {| ctx := ctx w; self := b; trace := trace w |}).

Definition set_fons (f : FONS) : M unit :=
  c ← get_ctx;
  put_ctx {| fons := f; locked := locked c; bound := bound c |}.

Definition set_dirtyTransform (d : bool) : M unit :=
  b ← get_self;
  put_self {| m_fsBuffer := m_fsBuffer b; m_dirtyTransform := d;
              m_mesh := m_mesh b; m_labels := m_labels b |}.

Definition set_mesh (m : Mesh.t) : M unit :=
  b ← get_self;
  put_self {| m_fsBuffer := m_fsBuffer b;
              m_dirtyTransform := m_dirtyTransform b;
              m_mesh := m; m_labels := m_labels b |}.

(** ** FontContext *)

(** Modelled from the spec: [FontContext::lock] is declared outside
    [textBatch.cpp]. It acquires the exclusive lock on the shared context;
    the lock is not re-entrant. *)
Definition FontContext_lock : M unit :=
  c ← get_ctx;
  if locked c then fail Deadlock
  else put_ctx {| fons := fons c; locked := true; bound := bound c |};;
       emit EvLock.

(** Modelled from the spec: [FontContext::unlock] releases the lock. *)
Definition FontContext_unlock : M unit :=
  c ← get_ctx;
  put_ctx {| fons := fons c; locked := false; bound := bound c |};;
  emit EvUnlock.

(** Modelled from the spec: [FontContext::bind(buffer)] acquires the
    exclusive lock and binds the batch's buffer; it returns the scoped view
    of the context. *)
Definition FontContext_bind (buffer : fsuint) : M fsuint :=
  FontContext_lock;;
  c ← get_ctx;
  put_ctx {| fons := fons c; locked := locked c; bound := Some buffer |};;
  emit (EvBind buffer);;
  mret buffer.

(** Modelled from the spec: the scoped view returned by [bind] unbinds the
    buffer and releases the lock when it goes out of scope. *)
Definition FontContext_release : M unit :=
  c ← get_ctx;
  put_ctx {| fons := fons c; locked := locked c; bound := None |};;
  emit EvUnbind;;
  FontContext_unlock.

(** ** TextBatch *)

(** The constructor: an empty mesh, no labels, the flag clear. The buffer
    handle is assigned by [init]. *)
Definition TextBatch_new : TextBatch :=
  {| m_fsBuffer := 0; m_dirtyTransform := false;
     m_mesh := Mesh.empty; m_labels := [] |}.

Definition init : M unit :=
  FontContext_lock;;
  c ← get_ctx;
  let '(id, f) := glfonsBufferCreate (fons c) in
  emit (EvGlfons BufferCreate);;
  set_fons f;;
  b ← get_self;
  put_self {| m_fsBuffer := id; m_dirtyTransform := m_dirtyTransform b;
              m_mesh := m_mesh b; m_labels := m_labels b |};;
  FontContext_unlock.

(** [~TextBatch()]. *)
Definition destroy : M unit :=
  c ← get_ctx;
  b ← get_self;
  emit (EvGlfons BufferDelete);;
  set_fons (glfonsBufferDelete (m_fsBuffer b) (fons c)).

Definition getVerticesSize : M Z :=
  b ← get_self;
  buf ← FontContext_bind (m_fsBuffer b);
  c ← get_ctx;
  emit (EvGlfons VerticesSize);;
  let n := glfonsVerticesSize buf (fons c) in
  FontContext_release;;
  mret n.

Definition genTextID : M fsuint :=
  b ← get_self;
  buf ← FontContext_bind (m_fsBuffer b);
  c ← get_ctx;
  let '(id, f) := glfonsGenText buf (fons c) in
  emit (EvGlfons GenText);;
  set_fons f;;
  FontContext_release;;
  mret id.

Definition rasterize (_text : string) (_id : fsuint) : M bool :=
  b ← get_self;
  buf ← FontContext_bind (m_fsBuffer b);
  c ← get_ctx;
  let '(valid, f) := glfonsRasterize buf _id _text (fons c) in
  emit (EvGlfons Rasterize);;
  set_fons f;;
  FontContext_release;;
  mret valid.

Definition pushBuffer : M unit :=
  b ← get_self;
  if m_dirtyTransform b then
    buf ← FontContext_bind (m_fsBuffer b);
    c ← get_ctx;
    let '(mesh, f) := glfonsUpdateBuffer buf (m_mesh b) (fons c) in
    emit (EvGlfons UpdateBuffer);;
    set_fons f;;
    set_mesh mesh;;
    set_dirtyTransform false;;
    FontContext_release
  else mret tt.

Definition transformID (_textID : fsuint) (_state : BufferVert.State)
  : M unit :=
  b ← get_self;
  buf ← FontContext_bind (m_fsBuffer b);
  c ← get_ctx;
  emit (EvGlfons Transform);;
  set_fons (glfonsTransform buf _textID
              (Vec2.x (BufferVert.screenPos _state))
              (Vec2.y (BufferVert.screenPos _state))
              (BufferVert.rotation _state) (BufferVert.alpha _state)
              (fons c));;
  set_dirtyTransform true;;
  FontContext_release.

Definition getBBox (_textID : fsuint) : M (float * float * float * float) :=
  b ← get_self;
  buf ← FontContext_bind (m_fsBuffer b);
  c ← get_ctx;
  emit (EvGlfons GetBBox);;
  let bbox := glfonsGetBBox buf _textID (fons c) in
  FontContext_release;;
  mret bbox.

(** [vertices.resize(bufferSize)] on an empty vector: the [int] is
    converted to [size_t], and a negative one becomes a size beyond
    [max_size]. *)
Definition resize (bufferSize : Z) : M (list BufferVert.t) :=
  if bufferSize <? 0 then fail LengthError
  else mret (replicate (Z.to_nat bufferSize) BufferVert.default).

Definition compile : M bool :=
  bufferSize ← getVerticesSize;
  if bufferSize =? 0 then mret false
  else
    vertices ← resize bufferSize;
    b ← get_self;
    buf ← FontContext_bind (m_fsBuffer b);
    c ← get_ctx;
    emit (EvGlfons (Vertices (length vertices)));;
    let '(res, vertices) := glfonsVertices buf (fons c) vertices in
    FontContext_release;;
    (if res then
       b ← get_self;
       emit (EvAddVertices (length vertices));;
       set_mesh (Mesh.addVertices vertices (m_mesh b))
     else mret tt);;
    b ← get_self;
    if Mesh.numVertices (m_mesh b) >? 0 then
      emit EvCompileVertexBuffer;;
      set_mesh (Mesh.compileVertexBuffer (m_mesh b));;
      mret true
    else mret false.

(** [label->pushTransform] on this batch: the label's [transformID]
    calls, in order. *)
Fixpoint run_transforms (calls : list (fsuint * BufferVert.State)) : M unit :=
  match calls with
  | [] => mret tt
  | (id, st) :: rest => transformID id st;; run_transforms rest
  end.

(** The loop of [prepare] over [m_labels], calling [pushTransform] on each
    label: [todo] are the labels not yet visited, [done] the visited
    ones. *)
Fixpoint prepare_loop (todo done : list Label) : M (list Label) :=
  match todo with
  | [] => mret done
  | label :: rest =>
      let '(calls, label') := pushTransform_calls label in
      run_transforms calls;;
      prepare_loop rest (done ++ [label'])
  end.

Definition prepare : M unit :=
  b ← get_self;
  labels ← prepare_loop (m_labels b) [];
  b ← get_self;
  put_self {| m_fsBuffer := m_fsBuffer b;
              m_dirtyTransform := m_dirtyTransform b;
              m_mesh := m_mesh b; m_labels := labels |};;
  pushBuffer.

(** ** What the operations leave behind

    Spec-side definitions: the worlds and traces the operations are shown
    to produce. *)

(** The events of one critical section around a call [c]. *)
Definition critical (buffer : fsuint) (c : GlfonsCall) : list Event :=
  [EvLock; EvBind buffer; EvGlfons c; EvUnbind; EvUnlock].

Definition with_dirty (d : bool) (b : TextBatch) : TextBatch :=
  {| m_fsBuffer := m_fsBuffer b; m_dirtyTransform := d;
     m_mesh := m_mesh b; m_labels := m_labels b |}.

Definition with_mesh (m : Mesh.t) (b : TextBatch) : TextBatch :=
  {| m_fsBuffer := m_fsBuffer b; m_dirtyTransform := m_dirtyTransform b;
     m_mesh := m; m_labels := m_labels b |}.

Definition free_ctx (f : FONS) : FontContext :=
  {| fons := f; locked := false; bound := None |}.

(** The state between two operations: the lock free, no buffer bound. *)
Definition free_world (w : World) : Prop :=
  locked (ctx w) = false /\ bound (ctx w) = None.

(** What [pushBuffer] leaves behind. *)
Definition pushBuffer_post (w : World) : World :=
  if m_dirtyTransform (self w) then
    let r := glfonsUpdateBuffer (m_fsBuffer (self w)) (m_mesh (self w))
               (fons (ctx w)) in
    {| ctx := free_ctx r.2;
       self := with_dirty false (with_mesh r.1 (self w));
       trace := trace w ++ critical (m_fsBuffer (self w)) UpdateBuffer |}
  else w.

(** The library state after a sequence of [glfonsTransform] calls. *)
Definition transform_fons (buffer : fsuint) (f : FONS)
    (calls : list (fsuint * BufferVert.State)) : FONS :=
  fold_left
    (fun f c =>
       glfonsTransform buffer c.1
         (Vec2.x (BufferVert.screenPos c.2))
         (Vec2.y (BufferVert.screenPos c.2))
         (BufferVert.rotation c.2) (BufferVert.alpha c.2) f)
    calls f.

Definition no_calls (calls : list (fsuint * BufferVert.State)) : bool :=
  match calls with [] => true | _ => false end.

(** What a sequence of [transformID] calls leaves behind. *)
Definition transforms_post (calls : list (fsuint * BufferVert.State))
    (w : World) : World :=
  {| ctx := free_ctx (transform_fons (m_fsBuffer (self w)) (fons (ctx w))
                        calls);
     self := with_dirty (m_dirtyTransform (self w) || negb (no_calls calls))
               (self w);
     trace := trace w ++
              concat ((fun _ => critical (m_fsBuffer (self w)) Transform)
                      <$> calls) |}.

(** The [transformID] calls of a list of labels, and the labels left. *)
Definition label_calls (labels : list Label)
  : list (fsuint * BufferVert.State) :=
  concat ((fun l => (pushTransform_calls l).1) <$> labels).

Definition labels_after (labels : list Label) : list Label :=
  (fun l => (pushTransform_calls l).2) <$> labels.

Definition with_labels (ls : list Label) (w : World) : World :=
  {| ctx := ctx w;
     self := {| m_fsBuffer := m_fsBuffer (self w);
                m_dirtyTransform := m_dirtyTransform (self w);
                m_mesh := m_mesh (self w); m_labels := ls |};
     trace := trace w |}.

(** What [prepare] leaves behind. *)
Definition prepare_post (w : World) : World :=
  pushBuffer_post
    (with_labels (labels_after (m_labels (self w)))
       (transforms_post (label_calls (m_labels (self w))) w)).

(** The contract of [compile] in the spec's words: nothing to draw on a
    zero count; else the pulled array goes to the mesh if the pull
    succeeded; nothing to draw if the mesh then holds no vertex; else the
    mesh's buffer is compiled and the answer is success. *)
Definition compile_contract (count : Z) (pull : bool * list BufferVert.t)
    (mesh : Mesh.t) : bool * Mesh.t :=
  if count =? 0 then (false, mesh)
  else
    let mesh1 := if pull.1 then Mesh.addVertices pull.2 mesh else mesh in
    if Mesh.numVertices mesh1 >? 0
    then (true, Mesh.compileVertexBuffer mesh1)
    else (false, mesh1).

(** The events of [compile], in order. *)
Definition compile_events (buffer : fsuint) (count : Z)
    (pull : bool * list BufferVert.t) (mesh : Mesh.t) : list Event :=
  critical buffer VerticesSize ++
  (if count =? 0 then []
   else critical buffer (Vertices (Z.to_nat count)) ++
        (if pull.1 then [EvAddVertices (length pull.2)] else []) ++
        (if (compile_contract count pull mesh).1
         then [EvCompileVertexBuffer] else [])).

(** What the context reports to [compile] in world [w]. *)
Definition count_in (w : World) : Z :=
  glfonsVerticesSize (m_fsBuffer (self w)) (fons (ctx w)).

Definition pull_in (w : World) : bool * list BufferVert.t :=
  glfonsVertices (m_fsBuffer (self w)) (fons (ctx w))
    (replicate (Z.to_nat (count_in w)) BufferVert.default).

(** An operation keeps the lock discipline when, started between two
    operations, it emits a well-locked trace and ends between two
    operations, whatever its outcome. *)
Definition disciplined {A : Type} (m : M A) : Prop :=
  forall w, free_world w ->
    exists tr,
      trace (m w).2 = trace w ++ tr /\
      well_locked tr = true /\
      free_world (m w).2.

End Batch.

(** ** Doubles for the examples

    A small glyph library (six vertices per character rasterized, one
    buffer) and a label that issues one [transformID] call while its
    transform is dirty. *)

Module TestFons.
Record t : Type := {
  next_handle : Z;
  verts : list BufferVert.t;
  pull_ok : bool
}.

Definition fresh : t := {| next_handle := 1; verts := []; pull_ok := true |}.

Definition alloc (f : t) : Z * t :=
  (next_handle f,
   {| next_handle := next_handle f + 1; verts := verts f;
      pull_ok := pull_ok f |}).

Definition raster (s : string) (f : t) : bool * t :=
  (true,
   {| next_handle := next_handle f;
      verts := verts f ++ replicate (6 * String.length s) BufferVert.default;
      pull_ok := pull_ok f |}).

Definition clear (f : t) : t :=
  {| next_handle := next_handle f; verts := []; pull_ok := pull_ok f |}.

Definition pull (f : t) (out : list BufferVert.t) : bool * list BufferVert.t :=
  if pull_ok f then (true, verts f) else (false, out).

#[global] Instance glfons : Glfons t := {|
  glfonsBufferCreate := alloc;
  glfonsBufferDelete := fun _ f => clear f;
  glfonsVerticesSize := fun _ f => Z.of_nat (length (verts f));
  glfonsGenText := fun _ f => alloc f;
  glfonsRasterize := fun _ _ s f => raster s f;
  glfonsUpdateBuffer := fun _ mesh f => (mesh, f);
  glfonsTransform := fun _ _ _ _ _ _ f => f;
  glfonsGetBBox := fun _ _ _ => (F32.zero, F32.zero, F32.zero, F32.zero);
  glfonsVertices := fun _ f out => pull f out
|}.
End TestFons.

Module TestLabel.
Record t : Type := {
  id : Z;
  transform : BufferVert.State;
  dirty : bool
}.

Definition pushTransform (l : t) : list (Z * BufferVert.State) * t :=
  if dirty l
  then ([(id l, transform l)],
        {| id := id l; transform := transform l; dirty := false |})
  else ([], l).
End TestLabel.

(** A world with the lock free, around a given library state and batch. *)
Definition world0 {FONS Label : Type} (f : FONS) (b : @TextBatch Label)
  : @World FONS Label :=
  {| ctx := {| fons := f; locked := false; bound := None |};
     self := b; trace := [] |}.

(** ** Inputs of the examples *)

Definition pt (x y : Z) : Point :=
  {| Vec3.x := F32.of_int x; Vec3.y := F32.of_int y; Vec3.z := F32.zero |}.

Definition named (s : string) : Properties := {[ "name" := s ]}.

Definition unit_square : Polygon := [[pt 0 0; pt 1 0; pt 1 1; pt 0 1]].



Definition square_feature : Feature :=
  {| geometryType := polygons; f_points := []; f_lines := [];
     f_polygons := [unit_square]; props := named "Square" |}.

(** Two polygons in one feature: the unit square, and a triangle. *)
Definition triangle : Polygon := [[pt 0 0; pt 6 0; pt 0 3]].

Definition two_polygons : Feature :=
  {| geometryType := polygons; f_points := []; f_lines := [];
     f_polygons := [unit_square; triangle]; props := named "Park" |}.

Definition at_half : vec2 := {| Vec2.x := F32.half; Vec2.y := F32.half |}.

Definition nan2 : vec2 := {| Vec2.x := S754_nan; Vec2.y := S754_nan |}.

(** A two-vertex line whose first vertex has no x coordinate. *)
Definition broken_line : Line :=
  [ {| Vec3.x := S754_nan; Vec3.y := F32.zero; Vec3.z := F32.zero |};
    pt 1 0 ].

(** A named line feature whose one line has no vertex, and a named polygon
    feature whose one polygon has one ring without vertices. *)
Definition empty_line_feature (name : string) : Feature :=
  {| geometryType := lines; f_points := []; f_lines := [[]];
     f_polygons := []; props := named name |}.

Definition empty_polygon_feature (name : string) : Feature :=
  {| geometryType := polygons; f_points := []; f_lines := [];
     f_polygons := [[[]]]; props := named name |}.

(** Five vertices: the stride is 2, the loop samples the segments starting
    at vertices 0 and 2; the second one has length 0. *)
Definition road : Line := [pt 0 0; pt 1 0; pt 1 0; pt 1 0; pt 5 5].

Abbreviation TestWorld := (@World TestFons.t TestLabel.t).

Definition still : BufferVert.State :=
  {| BufferVert.screenPos := BufferVert.zero2; BufferVert.alpha := F32.one;
     BufferVert.rotation := F32.zero |}.

(** The world after [init], [genTextID] and [rasterize("Lake", id)] on a
    new batch: one buffer, one run of four glyphs. *)
Definition world_lake : TestWorld :=
  let w0 := world0 TestFons.fresh TextBatch_new in
  let w1 := (init w0).2 in
  let r := genTextID w1 in
  match r.1 with
  | Ok id => (rasterize "Lake" id r.2).2
  | _ => r.2
  end.

(** A world whose library holds six vertices and refuses the pull, around
    a mesh that holds six vertices from an earlier [compile]. *)
Definition world_stale : TestWorld :=
  world0
    {| TestFons.next_handle := 3;
       TestFons.verts := replicate 6 BufferVert.default;
       TestFons.pull_ok := false |}
    {| m_fsBuffer := 1; m_dirtyTransform := false;
       m_mesh := Mesh.compileVertexBuffer
                   (Mesh.addVertices (replicate 6 BufferVert.default)
                      Mesh.empty);
       m_labels := [] |}.

(* ===================================================================== *)
(** * Part III: properties of the placement                              *)
(* ===================================================================== *)

(** ** Spec-side definitions *)

(** Left-to-right float sum, starting from [init]. *)
Definition fsum (init : float) (l : list float) : float :=
  fold_left F32.add l init.

(** The unweighted centroid of a vertex list: the sum of the coordinates
    divided by the number of vertices. *)
Definition centroid_of (vs : list Point) : vec2 :=
  {| Vec2.x := F32.div (fsum F32.zero (Vec3.x <$> vs))
                       (F32.of_int (Z.of_nat (length vs)));
     Vec2.y := F32.div (fsum F32.zero (Vec3.y <$> vs))
                       (F32.of_int (Z.of_nat (length vs))) |}.

(** The request a polygon gets: type point, both anchors at the centroid of
    all its ring vertices. *)
Definition polygon_label (name : string) (_polygon : Polygon) : TextLabel :=
  {| anchor1 := centroid_of (concat _polygon);
     anchor2 := centroid_of (concat _polygon);
     text := name; type := Label.point |}.

(** A vertex whose x and y coordinates are finite. *)
Definition finite_point (p : Point) : Prop :=
  F32.is_finite (Vec3.x p) = true /\ F32.is_finite (Vec3.y p) = true.

(** Length of the segment between two anchors, as [buildLine] computes it. *)
Definition segment_length (p1 p2 : vec2) : float :=
  Vec2.length (Vec2.sub p2 p1).

(** The request the segment starting at vertex [i] gets, if any. *)
Definition candidate_label (_line : Line) (name : string) (i : Z)
  : option TextLabel :=
  match _line !! Z.to_nat i, _line !! Z.to_nat (i + 1) with
  | Some a, Some b =>
      let p1 := Vec3.to_vec2 a in
      let p2 := Vec3.to_vec2 b in
      if F32.ltb (segment_length p1 p2) minLength then None
      else Some {| anchor1 := p1; anchor2 := p2; text := name;
                   type := Label.line |}
  | _, _ => None
  end.

(** The loop state after the body has run at index [i] without a fault. *)
Definition sampled_step (_line : Line) (name : string) (i : Z)
    (st : LineState) : LineState :=
  {| ls_labels := ls_labels st ++ option_list (candidate_label _line name i);
     ls_sampled := ls_sampled st ++ [i] |}.

(** The indices [i, i + s, i + 2s, ...], [cnt] of them. *)
Fixpoint stride_from (cnt : nat) (i s : Z) : list Z :=
  match cnt with
  | O => []
  | S c => i :: stride_from c (i + s) s
  end.

(** Number of candidate segments of a line of [N] vertices, by the spec's
    formula. *)
Definition candidates (N : Z) : Z := cdiv (N - 1) (Z.max 1 (N / 2)).

(** ** draw

    [draw] talks to the shader and to the mesh only; it is modelled by the
    sequence of calls it makes on them. The view it receives is not used. *)

(** binary64, for the [double] arithmetic of [draw]. *)
Module F64.
Definition prec : Z := 53.
Definition emax : Z := 1024.
(** Conversion of an integer to [double]. *)
Definition of_int (n : Z) : float := binary_normalize prec emax n 0 false.
Definition div : float -> float -> float := SFdiv prec emax.
End F64.

(** Conversion of a [double] to [float]: round to nearest even. *)
Definition narrow (d : float) : float :=
  match d with
  | S754_finite s m e =>
      binary_normalize F32.prec F32.emax (cond_Zopp s (Z.pos m)) e s
  | _ => d
  end.

(** A decimal literal [num/den] such as [0.2], passed where a [float] is
    expected: the nearest double, which the correctly rounded division
    yields, converted to [float]. *)
Definition literal (num den : Z) : float :=
  narrow (F64.div (F64.of_int num) (F64.of_int den)).

(** [float r = byte / 255.0] for an integer [byte]: the division is made in
    [double], the result converted to [float]. *)
Definition channel (byte : Z) : float :=
  narrow (F64.div (F64.of_int byte) (F64.of_int 255)).

Inductive DrawCall : Type :=
  | SetUniformf (name : string) (values : list float)
  | MeshDraw.

Definition draw (m_color : Z) : list DrawCall :=
  let r := channel (Z.land (Z.shiftr m_color 16) 255) in
  let g := channel (Z.land (Z.shiftr m_color 8) 255) in
  let b := channel (Z.land m_color 255) in
  [ SetUniformf "u_color" [literal 2 10; literal 2 10; literal 2 10];
    SetUniformf "u_sdf" [literal 3 10];
    MeshDraw;
    SetUniformf "u_color" [r; g; b];
    SetUniformf "u_sdf" [literal 8 10];
    MeshDraw ].

(** ** Further spec-side definitions *)

(** The request a point gets: type point, both anchors at the point. *)
Definition point_label (name : string) (_point : Point) : TextLabel :=
  {| anchor1 := Vec3.to_vec2 _point; anchor2 := Vec3.to_vec2 _point;
     text := name; type := Label.point |}.

(** The indices [buildLine] samples on a line of [N] vertices, and the
    requests it issues for them. *)
Definition line_samples (N : Z) : list Z :=
  stride_from (Z.to_nat (candidates N)) 0 (N / 2).

Definition line_labels (name : string) (_line : Line) : list TextLabel :=
  omap (candidate_label _line name)
       (line_samples (Z.of_nat (length _line))).

(** A line [buildLine] handles: between 1 and INT_MAX vertices, and no more
    than the fuel allows. *)
Definition line_in_range (fuel : nat) (_line : Line) : Prop :=
  1 <= Z.of_nat (length _line) <= INT_MAX /\ (length _line <= fuel)%nat.

(** A colour packed as [0xAARRGGBB]. *)
Definition pack_colour (a r g b : Z) : Z :=
  a * 2 ^ 24 + r * 2 ^ 16 + g * 2 ^ 8 + b.

(** The bytes 0..255, and what the table of their channel values must
    satisfy: each value is finite and within [0, 1], and the values
    increase strictly with the byte. *)
Definition bytes : list Z := seqZ 0 256.

Definition channel_table : list (Z * float) :=
  (fun k => (k, channel k)) <$> bytes.

Definition table_in_unit (tbl : list (Z * float)) : bool :=
  forallb (fun kc => F32.is_finite kc.2 && F32.leb F32.zero kc.2
                     && F32.leb kc.2 F32.one) tbl.

Definition table_increases (tbl : list (Z * float)) : bool :=
  forallb (fun jc =>
             forallb (fun kc => implb (jc.1 <? kc.1) (F32.ltb jc.2 kc.2))
                     tbl) tbl.

(** ** Further inputs of the examples *)

Definition lake : Feature :=
  {| geometryType := points; f_points := [pt 10 20]; f_lines := [];
     f_polygons := []; props := named "Lake" |}.

Definition roads : Feature :=
  {| geometryType := lines; f_points := [];
     f_lines := [road; [pt 0 0; pt 3 4]]; f_polygons := [];
     props := named "Main St" |}.

(** A batch with two labels, the first with a transform to push. *)
Definition world_two_labels : TestWorld :=
  world0 TestFons.fresh
    {| m_fsBuffer := 1; m_dirtyTransform := false; m_mesh := Mesh.empty;
       m_labels :=
         [ {| TestLabel.id := 1; TestLabel.transform := still;
              TestLabel.dirty := true |};
           {| TestLabel.id := 2; TestLabel.transform := still;
              TestLabel.dirty := false |} ] |}.

(** A glyph library that reports a negative vertex count. *)
Module BrokenFons.
#[global] Instance glfons : Glfons unit := {|
  glfonsBufferCreate := fun f => (1, f);
  glfonsBufferDelete := fun _ f => f;
  glfonsVerticesSize := fun _ _ => -1;
  glfonsGenText := fun _ f => (1, f);
  glfonsRasterize := fun _ _ _ f => (false, f);
  glfonsUpdateBuffer := fun _ mesh f => (mesh, f);
  glfonsTransform := fun _ _ _ _ _ _ f => f;
  glfonsGetBBox := fun _ _ _ => (F32.zero, F32.zero, F32.zero, F32.zero);
  glfonsVertices := fun _ _ out => (false, out)
|}.
End BrokenFons.

Definition world_broken : @World unit TestLabel.t :=
  world0 tt TextBatch_new.

(** ** Exact lengths

    Spec-side definitions: the value of a binary32 number as an integer
    multiple of a power of two, to compare the length of a segment as a
    real number with 0.15 without rounding. *)

(** [scaled e0 f] is the integer [n] with [f = n * 2^e0], for a finite [f]
    that is such a multiple. *)
Definition scaled (e0 : Z) (f : float) : option Z :=
  match f with
  | S754_zero _ => Some 0
  | S754_finite s m e =>
      if e0 <=? e then Some (cond_Zopp s (Z.pos m) * 2 ^ (e - e0)) else None
  | _ => None
  end.

(** The square of the Euclidean distance between two anchors, exactly, in
    units of [2^(2 * e0)]. *)
Definition distance2_scaled (e0 : Z) (p1 p2 : vec2) : option Z :=
  x1 ← scaled e0 (Vec2.x p1);
  y1 ← scaled e0 (Vec2.y p1);
  x2 ← scaled e0 (Vec2.x p2);
  y2 ← scaled e0 (Vec2.y p2);
  Some ((x2 - x1) ^ 2 + (y2 - y1) ^ 2).

(** The Euclidean distance [d] between two anchors is below 15/100:
    with [d^2 = n * 2^(2 * e0)] and [e0 <= 0], this is
    [100^2 * n < 15^2 * 2^(-2 * e0)]. *)
Definition shorter_than_0_15 (e0 : Z) (p1 p2 : vec2) : bool :=
  match distance2_scaled e0 p1 p2 with
  | Some n => (e0 <=? 0) && (100 ^ 2 * n <? 15 ^ 2 * 2 ^ (- 2 * e0))
  | None => false
  end.

(** Two vertices on the x axis, at -13421772 * 2^-28 and 13421773 * 2^-27:
    40265318 * 2^-28 apart, a little less than 0.15. *)
Definition short_a : Point :=
  {| Vec3.x := S754_finite true 13421772 (-28);
     Vec3.y := F32.zero; Vec3.z := F32.zero |}.

Definition short_b : Point :=
  {| Vec3.x := S754_finite false 13421773 (-27);
     Vec3.y := F32.zero; Vec3.z := F32.zero |}.

Definition short_line : Line := [short_a; short_b].

(** ** The discipline, with the bound buffer tracked

    The monitor of a batch that owns [buffer]: as [monitor_step], and it
    remembers the handle bound. Only [buffer] may be bound, and a call that
    works on the bound buffer needs [buffer] bound. *)
Record Owner : Type := { own_locked : bool; own_bound : option fsuint }.

Definition bound_is (buffer : fsuint) (o : option fsuint) : bool :=
  match o with
  | Some b => b =? buffer
  | None => false
  end.

Definition owner_step (buffer : fsuint) (m : Owner) (e : Event)
  : option Owner :=
  match e with
  | EvLock =>
      if own_locked m then None
      else Some {| own_locked := true; own_bound := own_bound m |}
  | EvUnlock =>
      match own_bound m with
      | None =>
          if own_locked m
          then Some {| own_locked := false; own_bound := None |}
          else None
      | Some _ => None
      end
  | EvBind b =>
      match own_bound m with
      | None =>
          if own_locked m && (b =? buffer)
          then Some {| own_locked := true; own_bound := Some b |}
          else None
      | Some _ => None
      end
  | EvUnbind =>
      match own_bound m with
      | Some _ =>
          if own_locked m
          then Some {| own_locked := true; own_bound := None |}
          else None
      | None => None
      end
  | EvGlfons c =>
      if own_locked m
         && (negb (needs_buffer c) || bound_is buffer (own_bound m))
      then Some m
      else None
  | EvAddVertices _ | EvCompileVertexBuffer => Some m
  end.

Fixpoint owner_monitor (buffer : fsuint) (m : Owner) (tr : list Event)
  : option Owner :=
  match tr with
  | [] => Some m
  | e :: tr' =>
      match owner_step buffer m e with
      | Some m' => owner_monitor buffer m' tr'
      | None => None
      end
  end.

Definition owner_free : Owner := {| own_locked := false; own_bound := None |}.

(** A trace that starts and ends with the lock free and nothing bound, and
    in which every call on the bound buffer is made with [buffer] bound. *)
Definition well_owned (buffer : fsuint) (tr : list Event) : bool :=
  match owner_monitor buffer owner_free tr with
  | Some m =>
      negb (own_locked m)
      && match own_bound m with None => true | Some _ => false end
  | None => false
  end.

Section Ownership.
Context {FONS : Type} {Label : Type}.

(** An operation works on the batch's own buffer when, started between two
    operations, it emits a trace that is well-locked and well-owned for the
    handle [m_fsBuffer] of the batch, leaves that handle as it was, and
    ends between two operations, whatever its outcome. *)
Definition on_own_buffer {A : Type} (m : @M FONS Label A) : Prop :=
  forall w, free_world w ->
    exists tr,
      trace (m w).2 = trace w ++ tr /\
      well_owned (m_fsBuffer (self w)) tr = true /\
      well_locked tr = true /\
      m_fsBuffer (self (m w).2) = m_fsBuffer (self w) /\
      free_world (m w).2.

End Ownership.

(** A glyph library that records the text ids it is asked to transform, in
    the order of the calls, and nothing else. *)
Module LogFons.
#[global] Instance glfons : Glfons (list Z) := {|
  glfonsBufferCreate := fun f => (1, f);
  glfonsBufferDelete := fun _ f => f;
  glfonsVerticesSize := fun _ _ => 0;
  glfonsGenText := fun _ f => (1, f);
  glfonsRasterize := fun _ _ _ f => (true, f);
  glfonsUpdateBuffer := fun _ mesh f => (mesh, f);
  glfonsTransform := fun _ id _ _ _ _ f => f ++ [id];
  glfonsGetBBox := fun _ _ _ => (F32.zero, F32.zero, F32.zero, F32.zero);
  glfonsVertices := fun _ _ out => (false, out)
|}.
End LogFons.

(** A batch with two labels, 1 then 2, each with a transform to push. *)
Definition world_log : @World (list Z) TestLabel.t :=
  world0 []
    {| m_fsBuffer := 1; m_dirtyTransform := false; m_mesh := Mesh.empty;
       m_labels :=
         [ {| TestLabel.id := 1; TestLabel.transform := still;
              TestLabel.dirty := true |};
           {| TestLabel.id := 2; TestLabel.transform := still;
              TestLabel.dirty := true |} ] |}.

(** ** Lemmas on the monad and the loops *)

Lemma foldM_app {A B : Type} (f : B -> A -> outcome B) (l1 l2 : list A) b :
  foldM f (l1 ++ l2) b = (b' ← foldM f l1 b; foldM f l2 b').
Proof.
  revert b. induction l1 as [|a l1 IH]; intros b; simpl; [done|].
  destruct (f b a) as [b'| |]; simpl; auto.
Qed.

Lemma foldM_concat {A B : Type} (f : B -> A -> outcome B)
    (ls : list (list A)) b :
  foldM (fun acc l => foldM f l acc) ls b = foldM f (concat ls) b.
Proof.
  revert b. induction ls as [|l ls IH]; intros b; simpl; [done|].
  rewrite foldM_app. destruct (foldM f l b) as [b'| |]; simpl; auto.
Qed.

Lemma for_each_acc {A : Type} (build : A -> outcome (list TextLabel))
    (label : A -> list TextLabel) (l : list A) (acc : list TextLabel) :
  (forall a, a ∈ l -> build a = Ok (label a)) ->
  foldM (fun acc a => ls ← build a; Ok (acc ++ ls)) l acc
  = Ok (acc ++ concat (label <$> l)).
Proof.
  revert acc. induction l as [|a l IH]; intros acc Hb; simpl.
  - by rewrite app_nil_r.
  - rewrite (Hb a) by set_solver. simpl.
    rewrite IH by (intros; apply Hb; set_solver).
    by rewrite <- app_assoc.
Qed.

Lemma for_each_ok {A : Type} (build : A -> outcome (list TextLabel))
    (label : A -> list TextLabel) (l : list A) :
  (forall a, a ∈ l -> build a = Ok (label a)) ->
  for_each build l = Ok (concat (label <$> l)).
Proof. intros Hb. unfold for_each. by rewrite (for_each_acc _ label). Qed.


Lemma concat_fmap_singleton {A B : Type} (f : A -> B) (l : list A) :
  concat ((fun a => [f a]) <$> l) = f <$> l.
Proof. induction l; simpl; f_equal; auto. Qed.

(** ** Integer conversions in range *)

Lemma to_size_small z : 0 <= z < 2 ^ 64 -> to_size z = z.
Proof. intros. unfold to_size. by apply Z.mod_small. Qed.

Lemma to_int_small z : 0 <= z <= INT_MAX -> to_int z = z.
Proof.
  unfold to_int, INT_MAX. intros.
  rewrite Z.mod_small; lia.
Qed.

Lemma to_size_range z : 0 <= to_size z < 2 ^ 64.
Proof. unfold to_size. apply Z.mod_pos_bound. lia. Qed.

Lemma cdiv_spec a b :
  0 < b -> b * (cdiv a b - 1) < a <= b * cdiv a b.
Proof.
  intros Hb. unfold cdiv.
  pose proof (Z.div_mod (a + b - 1) b ltac:(lia)) as E.
  pose proof (Z.mod_pos_bound (a + b - 1) b Hb) as R.
  nia.
Qed.

Lemma cdiv_step a b : 0 < b -> cdiv a b = 1 + cdiv (a - b) b.
Proof.
  intros Hb. unfold cdiv.
  replace (a + b - 1) with ((a - b + b - 1) + 1 * b) by lia.
  rewrite Z.div_add by lia. lia.
Qed.

Lemma cdiv_nonpos a b : 0 < b -> - b < a <= 0 -> cdiv a b = 0.
Proof. intros Hb Ha. unfold cdiv. apply Z.div_small. lia. Qed.

Lemma stride_from_length cnt i s : length (stride_from cnt i s) = cnt.
Proof. revert i. induction cnt; intros; simpl; auto. Qed.

Lemma stride_from_lookup cnt i s (k : nat) :
  (k < cnt)%nat -> stride_from cnt i s !! k = Some (i + Z.of_nat k * s).
Proof.
  revert i k. induction cnt as [|cnt IH]; intros i k Hk; [lia|].
  destruct k as [|k]; simpl.
  - f_equal. lia.
  - rewrite IH by lia. f_equal. lia.
Qed.

(** ** The sampling loop of buildLine *)

Lemma buildLine_body_eq (_line : Line) name i st :
  0 <= i -> i + 1 < 2 ^ 64 ->
  buildLine_body _line name i st =
  match _line !! Z.to_nat i, _line !! Z.to_nat (i + 1) with
  | Some _, Some _ => Ok (sampled_step _line name i st)
  | _, _ => Failed OutOfBounds
  end.
Proof.
  intros Hi Hi1. unfold buildLine_body, vec_at, sampled_step, candidate_label.
  unfold size_add. rewrite to_size_small by lia.
  destruct (_line !! Z.to_nat i) as [a|]; simpl; [|done].
  destruct (_line !! Z.to_nat (i + 1)) as [b|]; simpl; [|done].
  unfold segment_length.
  destruct (F32.ltb _ minLength); simpl; [|done].
  by rewrite app_nil_r.
Qed.

Lemma omap_singleton {A B : Type} (f : A -> option B) (a : A) :
  omap f [a] = option_list (f a).
Proof. simpl. by destruct (f a). Qed.

(** Whatever the line and the stride: when the loop returns, the requests
    it has added are exactly those of the segments it has sampled. *)
Lemma buildLine_loop_inv (_line : Line) name s fuel :
  forall i st st',
    0 <= i ->
    buildLine_loop fuel _line name s i st = Ok st' ->
    exists more,
      ls_sampled st' = ls_sampled st ++ more /\
      ls_labels st' = ls_labels st ++ omap (candidate_label _line name) more /\
      Forall (fun j => is_Some (_line !! Z.to_nat j) /\
                       is_Some (_line !! Z.to_nat (j + 1))) more.
Proof.
  induction fuel as [|fuel IH]; intros i st st' Hi Hrun; simpl in Hrun.
  { discriminate. }
  destruct (i <? size_sub (Z.of_nat (length _line)) 1) eqn:Hguard.
  - apply Z.ltb_lt in Hguard.
    pose proof (to_size_range (Z.of_nat (length _line) - 1)) as Hr.
    unfold size_sub in Hguard.
    rewrite buildLine_body_eq in Hrun by lia.
    destruct (_line !! Z.to_nat i) as [a|] eqn:Ea; [|discriminate].
    destruct (_line !! Z.to_nat (i + 1)) as [b|] eqn:Eb; [|discriminate].
    simpl in Hrun. apply IH in Hrun.
    2:{ unfold size_add. apply to_size_range. }
    destruct Hrun as (more & Hs & Hl & Hall).
    exists (i :: more). simpl in Hs, Hl. split; [|split].
    + by rewrite Hs, <- app_assoc.
    + rewrite Hl, <- app_assoc. f_equal.
      change (i :: more) with ([i] ++ more).
      by rewrite omap_app, omap_singleton.
    + constructor; [|done]. rewrite Ea, Eb. eauto.
  - inversion Hrun; subst. exists []. simpl.
    by rewrite !app_nil_r.
Qed.

(** In range, the loop returns, and it samples the indices
    [i, i + s, ...] below [N - 1]. *)
Lemma buildLine_loop_run (_line : Line) name s :
  let N := Z.of_nat (length _line) in
  1 <= N <= INT_MAX -> 1 <= s <= INT_MAX ->
  forall fuel i st,
    0 <= i < N - 1 + s ->
    (Z.to_nat (cdiv (N - 1 - i) s) < fuel)%nat ->
    buildLine_loop fuel _line name s i st =
    Ok {| ls_labels := ls_labels st ++
            omap (candidate_label _line name)
                 (stride_from (Z.to_nat (cdiv (N - 1 - i) s)) i s);
          ls_sampled := ls_sampled st ++
            stride_from (Z.to_nat (cdiv (N - 1 - i) s)) i s |}.
Proof.
  intros N HN Hs. unfold INT_MAX in *.
  induction fuel as [|fuel IH]; intros i st Hi Hfuel; [lia|].
  simpl. fold N. unfold size_sub. rewrite to_size_small by lia.
  destruct (i <? N - 1) eqn:Hguard.
  - apply Z.ltb_lt in Hguard.
    rewrite buildLine_body_eq by lia.
    destruct (lookup_lt_is_Some_2 _line (Z.to_nat i)) as [a Ea]; [lia|].
    destruct (lookup_lt_is_Some_2 _line (Z.to_nat (i + 1))) as [b Eb]; [lia|].
    rewrite Ea, Eb. simpl.
    unfold size_add. rewrite (to_size_small s), to_size_small by lia.
    pose proof (cdiv_step (N - 1 - i) s ltac:(lia)) as Hstep.
    pose proof (cdiv_spec (N - 1 - i - s) s ltac:(lia)) as Hspec.
    assert (0 <= cdiv (N - 1 - i - s) s) by nia.
    replace (N - 1 - (i + s)) with (N - 1 - i - s) in IH by lia.
    rewrite Hstep in *.
    rewrite Z2Nat.inj_add in * by lia.
    change (Z.to_nat 1) with 1%nat in *. simpl in Hfuel. simpl.
    specialize (IH (i + s) (sampled_step _line name i st)).
    replace (N - 1 - (i + s)) with (N - 1 - i - s) in IH by lia.
    rewrite IH by lia.
    unfold sampled_step. simpl. f_equal. f_equal.
    + rewrite <- app_assoc. f_equal. by destruct (candidate_label _line name i).
    + by rewrite <- app_assoc.
  - apply Z.ltb_ge in Hguard.
    rewrite cdiv_nonpos by lia. simpl. rewrite !app_nil_r. by destruct st.
Qed.

(** ** The centroid loop of buildPolygon *)

Lemma centroid_step_ok (c : vec3) (n : Z) (p : Point) :
  n < INT_MAX ->
  centroid_step (c, n) p =
  Ok ({| Vec3.x := F32.add (Vec3.x c) (Vec3.x p);
         Vec3.y := F32.add (Vec3.y c) (Vec3.y p);
         Vec3.z := Vec3.z c |}, n + 1).
Proof.
  intros Hn. unfold centroid_step.
  destruct (n <? INT_MAX) eqn:E; [done|]. apply Z.ltb_ge in E. lia.
Qed.

Lemma centroid_fold (vs : list Point) (c : vec3) (n : Z) :
  0 <= n -> n + Z.of_nat (length vs) <= INT_MAX ->
  foldM centroid_step vs (c, n) =
  Ok ({| Vec3.x := fsum (Vec3.x c) (Vec3.x <$> vs);
         Vec3.y := fsum (Vec3.y c) (Vec3.y <$> vs);
         Vec3.z := Vec3.z c |}, n + Z.of_nat (length vs)).
Proof.
  revert c n. induction vs as [|p vs IH]; intros c n Hn Hb.
  - simpl. rewrite Z.add_0_r. by destruct c.
  - rewrite length_cons in Hb.
    change (foldM centroid_step (p :: vs) (c, n))
      with (b' ← centroid_step (c, n) p; foldM centroid_step vs b').
    rewrite centroid_step_ok by lia.
    cbn [mbind outcome_bind]. rewrite IH by lia.
    cbn. do 2 f_equal. lia.
Qed.

Lemma buildPolygon_named (_polygon : Polygon) (_props : Properties) name :
  getString "name" _props = Some name ->
  Z.of_nat (length (concat _polygon)) <= INT_MAX ->
  buildPolygon _polygon _props = Ok [polygon_label name _polygon].
Proof.
  intros Hname Hb. unfold buildPolygon. rewrite Hname.
  rewrite foldM_concat, centroid_fold by lia.
  reflexivity.
Qed.

(** ** Floats: which operations yield numbers

    Rounding a mantissa that is not negative never yields NaN and keeps
    the sign it is given; so the difference of finite values, the sum of
    squares and its square root are numbers. *)

Section Rounding.
Variables prec emax : Z.

Lemma shr_1_nonneg mrs : 0 <= shr_m mrs -> 0 <= shr_m (shr_1 mrs).
Proof. destruct mrs as [[|[p|p|]|p] r s]; simpl; lia. Qed.

Lemma iter_pos_nonneg n mrs :
  0 <= shr_m mrs -> 0 <= shr_m (SpecFloat.iter_pos shr_1 n mrs).
Proof.
  revert mrs. induction n as [n IH|n IH|]; intros mrs H; simpl.
  - apply IH, IH, shr_1_nonneg, H.
  - apply IH, IH, H.
  - apply shr_1_nonneg, H.
Qed.

Lemma shr_fexp_nonneg m e l :
  0 <= m -> 0 <= shr_m (shr_fexp prec emax m e l).1.
Proof.
  intros Hm. unfold shr_fexp, shr.
  assert (0 <= shr_m (shr_record_of_loc m l)) as H0
    by (destruct l as [|[]]; exact Hm).
  destruct (fexp prec emax (Zdigits2 m + e) - e); simpl; try exact H0.
  by apply iter_pos_nonneg.
Qed.

Lemma round_nearest_even_nonneg m l : 0 <= m -> 0 <= round_nearest_even m l.
Proof.
  intros Hm. unfold round_nearest_even.
  destruct l as [|[]]; try destruct (Z.even m); lia.
Qed.

Lemma binary_round_aux_signed sx mx ex lx :
  0 <= mx -> F32.signed_as sx (binary_round_aux prec emax sx mx ex lx).
Proof.
  intros Hm. unfold binary_round_aux.
  pose proof (shr_fexp_nonneg mx ex lx Hm) as H1.
  destruct (shr_fexp prec emax mx ex lx) as [mrs' e']. simpl in H1.
  pose proof (shr_fexp_nonneg _ e' loc_Exact
                (round_nearest_even_nonneg _ (loc_of_shr_record mrs') H1)) as H2.
  destruct (shr_fexp prec emax _ e' loc_Exact) as [mrs'' e'']. simpl in H2.
  destruct (shr_m mrs'') as [|m|m]; simpl; [done| |lia].
  by destruct (e'' <=? emax - prec).
Qed.

Lemma binary_round_signed sx mx ex :
  F32.signed_as sx (binary_round prec emax sx mx ex).
Proof.
  unfold binary_round. destruct (shl_align _ _ _) as [mz ez].
  by apply binary_round_aux_signed.
Qed.

Lemma binary_normalize_number m e szero :
  F32.is_nan (binary_normalize prec emax m e szero) = false.
Proof.
  destruct m as [|m|m]; simpl; [done| |].
  - pose proof (binary_round_signed false m e) as H.
    by destruct (binary_round prec emax false m e).
  - pose proof (binary_round_signed true m e) as H.
    by destruct (binary_round prec emax true m e).
Qed.

Lemma SFsub_finite a b :
  F32.is_finite a = true -> F32.is_finite b = true ->
  F32.is_nan (SFsub prec emax a b) = false.
Proof.
  destruct a as [sa|sa| |sa ma ea], b as [sb|sb| |sb mb eb]; try done.
  - intros _ _. by destruct sa, sb.
  - intros _ _. apply binary_normalize_number.
Qed.

Lemma SFmul_self a :
  F32.is_nan a = false -> F32.not_negative (SFmul prec emax a a) = true.
Proof.
  destruct a as [sa|sa| |sa ma ea]; try done; intros _; simpl.
  - by destruct sa.
  - pose proof (binary_round_aux_signed (xorb sa sa) (Z.pos (ma * ma))
                  (ea + ea) loc_Exact ltac:(lia)) as H.
    rewrite xorb_nilpotent in *.
    destruct (binary_round_aux _ _ _ _ _ _) as [s|s| |s m e];
      simpl in H; subst; done.
Qed.

Lemma SFadd_not_negative a b :
  F32.not_negative a = true -> F32.not_negative b = true ->
  F32.not_negative (SFadd prec emax a b) = true.
Proof.
  destruct a as [sa|[]| |[] ma ea], b as [sb|[]| |[] mb eb]; try done.
  - intros _ _. by destruct sa, sb.
  - intros _ _. simpl.
    pose proof (binary_round_signed false
                  ((shl_align ma ea (Z.min ea eb)).1 +
                   (shl_align mb eb (Z.min ea eb)).1) (Z.min ea eb)) as H.
    destruct (binary_round _ _ _ _ _) as [s|s| |s m e];
      simpl in H; subst; done.
Qed.

Lemma SFsqrt_not_negative a :
  F32.not_negative a = true -> F32.is_nan (SFsqrt prec emax a) = false.
Proof.
  destruct a as [sa|[]| |[] ma ea]; try done. intros _. simpl.
  unfold SFsqrt_core_binary.
  set (e' := Z.min _ _). set (m' := match _ with Z0 => _ | _ => _ end).
  pose proof (Z.sqrtrem_spec m') as Hs.
  destruct (Z.sqrtrem m') as [q r] eqn:E.
  assert (0 <= q) as Hq.
  { pose proof (Z.sqrtrem_sqrt m') as Hq. rewrite E in Hq. simpl in Hq.
    subst q. apply Z.sqrt_nonneg. }
  pose proof (binary_round_aux_signed false q e'
     (if r =? 0 then loc_Exact else loc_Inexact (if r <=? q then Lt else Gt))
     Hq) as H.
  by destruct (binary_round_aux _ _ _ _ _ _).
Qed.
End Rounding.

Lemma segment_length_number (a b : Point) :
  finite_point a -> finite_point b ->
  F32.is_nan (segment_length (Vec3.to_vec2 a) (Vec3.to_vec2 b)) = false.
Proof.
  intros [Hax Hay] [Hbx Hby].
  unfold segment_length, Vec2.length, Vec2.dot, Vec2.mul, Vec2.sub. simpl.
  apply SFsqrt_not_negative, SFadd_not_negative;
    apply SFmul_self, SFsub_finite; done.
Qed.

(** Comparison of floats that are numbers is total. *)
Lemma F32_not_ltb_leb (a b : float) :
  F32.is_nan a = false -> F32.is_nan b = false ->
  F32.ltb a b = false -> F32.leb b a = true.
Proof.
  unfold F32.ltb, F32.leb, SFltb, SFleb.
  destruct a as [sa|sa| |sa ma ea], b as [sb|sb| |sb mb eb];
    simpl; try discriminate; try (destruct sa, sb; done);
    try (destruct sa; done); try (destruct sb; done).
  intros _ _.
  assert (Pos.compare_cont Eq mb ma = CompOpp (Pos.compare_cont Eq ma mb))
    as Hm by (by rewrite Pos.compare_cont_antisym).
  rewrite (Z.compare_antisym ea eb), Hm.
  destruct sa, sb; simpl; try done;
    destruct (ea ?= eb); simpl; try done;
    destruct (Pos.compare_cont Eq ma mb); done.
Qed.

(** ** Facts on the constants *)

Example half_plus_half : F32.add F32.half F32.half = F32.one.
Proof. reflexivity. Qed.

Example one_over_two : F32.div F32.one F32.two = F32.half.
Proof. reflexivity. Qed.

(** [minLength] is 15/100 rounded to binary32. *)
Example minLength_rounds_0_15 :
  F32.div (F32.of_int 15) (F32.of_int 100) = minLength.
Proof. reflexivity. Qed.

Lemma skipOffset_in_range N :
  0 <= N <= INT_MAX -> skipOffset_of N = N / 2.
Proof.
  intros HN. unfold skipOffset_of, lineLength_of.
  rewrite to_int_small by done. apply Z.quot_div_nonneg; lia.
Qed.

Lemma buildLine_unnamed fuel (_line : Line) (_props : Properties) :
  getString "name" _props = None ->
  buildLine fuel _line _props = Ok {| ls_labels := []; ls_sampled := [] |}.
Proof. intros Hn. unfold buildLine. by rewrite Hn. Qed.

Lemma candidate_label_inv (_line : Line) name i l :
  candidate_label _line name i = Some l ->
  exists a b,
    _line !! Z.to_nat i = Some a /\ _line !! Z.to_nat (i + 1) = Some b /\
    l = {| anchor1 := Vec3.to_vec2 a; anchor2 := Vec3.to_vec2 b;
           text := name; type := Label.line |} /\
    F32.ltb (segment_length (Vec3.to_vec2 a) (Vec3.to_vec2 b)) minLength
    = false.
Proof.
  unfold candidate_label. intros H.
  destruct (_line !! Z.to_nat i) as [a|]; [|done].
  destruct (_line !! Z.to_nat (i + 1)) as [b|]; [|done].
  simpl in H.
  destruct (F32.ltb _ minLength) eqn:E; [done|].
  inversion H; subst. eauto 10.
Qed.

Lemma buildLine_labels_sampled fuel (_line : Line) (_props : Properties)
    name st :
  getString "name" _props = Some name ->
  buildLine fuel _line _props = Ok st ->
  ls_labels st = omap (candidate_label _line name) (ls_sampled st).
Proof.
  intros Hn Hrun. unfold buildLine in Hrun. rewrite Hn in Hrun.
  apply buildLine_loop_inv in Hrun; [|done].
  destruct Hrun as (more & -> & -> & _). done.
Qed.

(* ===================================================================== *)
(** * Part IV: the claims on placement                                    *)
(* ===================================================================== *)

(** ** C1 *)




(** ** C2 *)

(** C2, as amended: for every feature of type polygons with a "name"
    property, [add] issues exactly one request per polygon of the feature
    (each polygon holding at least one and at most INT_MAX vertices), in
    order, of type point, with both anchors at the unweighted centroid of
    all ring vertices of that polygon: the float sum of the x and of the y
    coordinates over the concatenated rings, divided by the vertex count.
    For the unit square the centroid is (0.5, 0.5). *)
Theorem add_polygons_centroid (fuel : nat) (_feature : Feature) name :
  geometryType _feature = polygons ->
  getString "name" (props _feature) = Some name ->
  Forall (fun pg : Polygon => 1 <= Z.of_nat (length (concat pg)) <= INT_MAX)
         (f_polygons _feature) ->
  add fuel _feature =
    Ok ((fun pg =>
           {| anchor1 := centroid_of (concat pg);
              anchor2 := centroid_of (concat pg);
              text := name; type := Label.point |})
        <$> f_polygons _feature)
  /\ centroid_of (concat unit_square) = at_half.
Proof.
  intros Hg Hn Hb. split; [|reflexivity].
  unfold add. rewrite Hg.
  rewrite (for_each_ok _ (fun pg => [polygon_label name pg])).
  - by rewrite concat_fmap_singleton.
  - intros pg Hin. apply buildPolygon_named; [done|].
    rewrite Forall_forall in Hb. by apply Hb.
Qed.

Lemma add_polygons_centroid_witness :
  add 0 square_feature =
  Ok [ {| anchor1 := at_half; anchor2 := at_half;
          text := "Square"; type := Label.point |} ].
Proof.
  destruct (add_polygons_centroid 0 square_feature "Square") as [H _].
  - reflexivity.
  - reflexivity.
  - repeat constructor; vm_compute; discriminate.
  - exact H.
Defined.

(** C2 fails as stated: a polygon feature gets one request per polygon,
    not one per feature. *)
Lemma add_two_polygons_counterexample :
  geometryType two_polygons = polygons /\
  getString "name" (props two_polygons) = Some "Park" /\
  add 0 two_polygons =
  Ok [ {| anchor1 := at_half; anchor2 := at_half;
          text := "Park"; type := Label.point |};
       {| anchor1 := Vec3.to_vec2 (pt 2 1); anchor2 := Vec3.to_vec2 (pt 2 1);
          text := "Park"; type := Label.point |} ].
Proof. repeat split; reflexivity. Qed.

(** ** C3 *)

(** C3 fails on the code. A named line without vertices: the loop bound
    [_line.size() - 1] wraps to SIZE_MAX, the guard holds at [i = 0], the
    stride is 0 so [i] stays at 0, and the first run of the body reads
    [_line[0]] past the end. A named polygon without vertices: the centroid
    is divided by [n = 0], and a request anchored at (NaN, NaN) is issued. *)
Theorem empty_geometry_faults (name : string) :
  size_sub (Z.of_nat (length (@nil Vec3.t))) 1 = SIZE_MAX /\
  skipOffset_of (Z.of_nat (length (@nil Vec3.t))) = 0 /\
  size_add 0 (to_size 0) = 0 /\
  (forall fuel, buildLine (S fuel) [] (named name) = Failed OutOfBounds) /\
  Vec3.div_int Vec3.default 0 =
    {| Vec3.x := S754_nan; Vec3.y := S754_nan; Vec3.z := S754_nan |} /\
  buildPolygon [] (named name) =
    Ok [ {| anchor1 := nan2; anchor2 := nan2; text := name;
            type := Label.point |} ] /\
  buildPolygon [[]] (named name) =
    Ok [ {| anchor1 := nan2; anchor2 := nan2; text := name;
            type := Label.point |} ] /\
  (forall fuel,
     add (S fuel) (empty_line_feature name) = Failed OutOfBounds) /\
  (forall fuel,
     add fuel (empty_polygon_feature name) =
     Ok [ {| anchor1 := nan2; anchor2 := nan2; text := name;
             type := Label.point |} ]).
Proof.
  repeat split; try reflexivity.
Qed.

(** ** C7 *)

(** C7: for a line of N vertices, 1 <= N <= INT_MAX, with a "name"
    property, [buildLine] returns (given fuel for N iterations) after
    running its loop body at exactly ceil((N-1) / max(1, floor(N/2)))
    indices: 0, floor(N/2), 2 floor(N/2), ..., the k-th of them being
    k floor(N/2). *)
Theorem buildLine_candidates (fuel : nat) (_line : Line)
    (_props : Properties) name :
  let N := Z.of_nat (length _line) in
  getString "name" _props = Some name ->
  1 <= N <= INT_MAX ->
  (length _line <= fuel)%nat ->
  exists st,
    buildLine fuel _line _props = Ok st /\
    ls_sampled st = stride_from (Z.to_nat (candidates N)) 0 (N / 2) /\
    Z.of_nat (length (ls_sampled st)) = candidates N /\
    (forall k : nat, (k < length (ls_sampled st))%nat ->
       ls_sampled st !! k = Some (Z.of_nat k * (N / 2))) /\
    Z.max 1 (N / 2) * (candidates N - 1) < N - 1
      <= Z.max 1 (N / 2) * candidates N.
Proof.
  intros N Hn HN Hfuel.
  pose proof (cdiv_spec (N - 1) (Z.max 1 (N / 2)) ltac:(lia)) as Hc.
  fold (candidates N) in Hc.
  assert (0 <= candidates N) as Hc0 by nia.
  unfold buildLine. rewrite Hn. fold N.
  rewrite skipOffset_in_range by lia.
  destruct (decide (N = 1)) as [E1|E1].
  - (* a single vertex: the loop body never runs *)
    assert (candidates N = 0) as E0 by (rewrite E1; reflexivity).
    destruct fuel as [|fuel]; [lia|].
    eexists. split; [|split; [|split; [|split]]].
    + simpl. fold N. rewrite E1. reflexivity.
    + by rewrite E0.
    + by rewrite E0.
    + simpl. intros k Hk. lia.
    + done.
  - assert (1 <= N / 2 <= INT_MAX) as Hs.
    { split; [apply Z.div_le_lower_bound; lia|].
      apply Z.div_le_upper_bound; lia. }
    assert (Z.max 1 (N / 2) = N / 2) as Emax by lia.
    assert (candidates N <= N - 1) as Hle by (rewrite Emax in Hc; nia).
    pose proof (buildLine_loop_run _line name (N / 2) HN Hs fuel 0
                  {| ls_labels := []; ls_sampled := [] |}) as Hrun.
    cbv zeta in Hrun. fold N in Hrun.
    rewrite Z.sub_0_r in Hrun.
    unfold candidates in *. rewrite Emax in *.
    rewrite Hrun by lia.
    eexists. split; [reflexivity|]. simpl.
    rewrite stride_from_length.
    split; [done|]. split; [lia|]. split; [|lia].
    intros k Hk. by rewrite stride_from_lookup.
Qed.

Lemma buildLine_candidates_witness :
  exists st,
    buildLine 5 road (named "Main St") = Ok st /\
    ls_sampled st = [0; 2] /\
    Z.of_nat (length (ls_sampled st)) = candidates 5.
Proof.
  destruct (buildLine_candidates 5 road (named "Main St") "Main St")
    as (st & Hrun & Hs & Hlen & _ & _).
  - reflexivity.
  - vm_compute. split; discriminate.
  - simpl. lia.
  - exists st. split; [exact Hrun|]. split; [exact Hs|exact Hlen].
Defined.

(** ** C8 *)

(** The loop samples indices that are not negative. *)
Lemma buildLine_loop_nonneg (_line : Line) name s fuel :
  forall i st st',
    0 <= i ->
    Forall (fun j => 0 <= j) (ls_sampled st) ->
    buildLine_loop fuel _line name s i st = Ok st' ->
    Forall (fun j => 0 <= j) (ls_sampled st').
Proof.
  induction fuel as [|fuel IH]; intros i st st' Hi Hst Hrun; simpl in Hrun.
  { discriminate. }
  destruct (i <? size_sub (Z.of_nat (length _line)) 1) eqn:Hguard.
  - apply Z.ltb_lt in Hguard.
    pose proof (to_size_range (Z.of_nat (length _line) - 1)) as Hr.
    unfold size_sub in Hguard.
    rewrite buildLine_body_eq in Hrun by lia.
    destruct (_line !! Z.to_nat i) as [a|]; [|discriminate].
    destruct (_line !! Z.to_nat (i + 1)) as [b|]; [|discriminate].
    simpl in Hrun. apply IH in Hrun; [done| |].
    + unfold size_add. apply to_size_range.
    + simpl. apply Forall_app. split; [done|]. by constructor.
  - by inversion Hrun; subst.
Qed.

Lemma buildLine_sampled_nonneg fuel (_line : Line) (_props : Properties) st :
  buildLine fuel _line _props = Ok st ->
  Forall (fun j => 0 <= j) (ls_sampled st).
Proof.
  unfold buildLine. destruct (getString "name" _props) as [name|].
  - apply buildLine_loop_nonneg; [done|constructor].
  - intros H. inversion H; subst. constructor.
Qed.

Lemma minLength_number : F32.is_nan minLength = false.
Proof. reflexivity. Qed.

(** C8 fails as stated: the length [buildLine] compares with [minLength] is
    computed in binary32. The segment from [short_a] to [short_b], with
    finite coordinates, is 40265318 * 2^-28 long, which is below 0.15
    (100 * 40265318 < 15 * 2^28); the difference of the x coordinates
    rounds to [minLength], so does the length, and the segment gets its
    request. *)
Lemma buildLine_short_segment_counterexample :
  Forall finite_point short_line /\
  valid_binary F32.prec F32.emax (Vec3.x short_a) = true /\
  valid_binary F32.prec F32.emax (Vec3.x short_b) = true /\
  buildLine 2 short_line (named "Main St") =
    Ok {| ls_labels :=
            [ {| anchor1 := Vec3.to_vec2 short_a;
                 anchor2 := Vec3.to_vec2 short_b;
                 text := "Main St"; type := Label.line |} ];
          ls_sampled := [0] |} /\
  distance2_scaled (-28) (Vec3.to_vec2 short_a) (Vec3.to_vec2 short_b)
    = Some (40265318 ^ 2) /\
  100 * 40265318 < 15 * 2 ^ 28 /\
  shorter_than_0_15 (-28) (Vec3.to_vec2 short_a) (Vec3.to_vec2 short_b)
    = true /\
  segment_length (Vec3.to_vec2 short_a) (Vec3.to_vec2 short_b) = minLength.
Proof.
  split; [repeat constructor|].
  split_and?; reflexivity.
Qed.

(** C8, as amended: every request [buildLine] issues is of type line and
    anchored at the two endpoints of a segment its loop sampled, whose
    length as computed in binary32 (the rounded square root of the rounded
    sum of the squares of the rounded coordinate differences) is not below
    [minLength], the binary32 nearest to 0.15: the computed length is NaN
    or at least [minLength], and at least [minLength] when the coordinates
    of the endpoints are finite. The requests are exactly those of the
    sampled segments whose computed length is not below [minLength], so a
    sampled segment whose computed length is below it gets none. *)
Theorem buildLine_labels_min_length (fuel : nat) (_line : Line)
    (_props : Properties) name st :
  getString "name" _props = Some name ->
  buildLine fuel _line _props = Ok st ->
  (forall l, l ∈ ls_labels st ->
     exists i a b,
       0 <= i /\ i ∈ ls_sampled st /\
       _line !! Z.to_nat i = Some a /\ _line !! Z.to_nat (i + 1) = Some b /\
       l = {| anchor1 := Vec3.to_vec2 a; anchor2 := Vec3.to_vec2 b;
              text := name; type := Label.line |} /\
       F32.ltb (segment_length (anchor1 l) (anchor2 l)) minLength = false /\
       (F32.is_nan (segment_length (anchor1 l) (anchor2 l)) = true \/
        F32.leb minLength (segment_length (anchor1 l) (anchor2 l)) = true) /\
       (finite_point a -> finite_point b ->
        F32.leb minLength (segment_length (anchor1 l) (anchor2 l)) = true))
  /\ ls_labels st = omap (candidate_label _line name) (ls_sampled st)
  /\ (forall i a b,
        _line !! Z.to_nat i = Some a -> _line !! Z.to_nat (i + 1) = Some b ->
        F32.ltb (segment_length (Vec3.to_vec2 a) (Vec3.to_vec2 b)) minLength
        = true ->
        candidate_label _line name i = None).
Proof.
  intros Hn Hrun.
  pose proof (buildLine_labels_sampled _ _ _ _ _ Hn Hrun) as Hl.
  pose proof (buildLine_sampled_nonneg _ _ _ _ Hrun) as Hpos.
  rewrite Forall_forall in Hpos.
  split; [|split; [exact Hl|]].
  - intros l Hin. rewrite Hl in Hin.
    apply list_elem_of_omap in Hin. destruct Hin as (i & Hi & Hc).
    apply candidate_label_inv in Hc.
    destruct Hc as (a & b & Ha & Hb & -> & Hlt).
    exists i, a, b. cbn [anchor1 anchor2].
    split; [by apply Hpos|]. split; [done|]. split; [done|].
    split; [done|]. split; [done|]. split; [done|]. split.
    + destruct (F32.is_nan (segment_length (Vec3.to_vec2 a) (Vec3.to_vec2 b)))
        eqn:Enan; [by left|right].
      apply F32_not_ltb_leb; [done|apply minLength_number|done].
    + intros Hfa Hfb.
      apply F32_not_ltb_leb; [|apply minLength_number|done].
      by apply segment_length_number.
  - intros i a b Ha Hb Hlt. unfold candidate_label.
    rewrite Ha, Hb. simpl. by rewrite Hlt.
Qed.

Lemma buildLine_labels_min_length_witness :
  buildLine 5 road (named "Main St") =
    Ok {| ls_labels :=
            [ {| anchor1 := Vec3.to_vec2 (pt 0 0);
                 anchor2 := Vec3.to_vec2 (pt 1 0);
                 text := "Main St"; type := Label.line |} ];
          ls_sampled := [0; 2] |} /\
  candidate_label road "Main St" 2 = None.
Proof.
  split; [reflexivity|].
  eapply (buildLine_labels_min_length 5 road (named "Main St") "Main St").
  - reflexivity.
  - reflexivity.
  - reflexivity.
  - reflexivity.
  - reflexivity.
Defined.

(** Without finite coordinates the length may be NaN, which is not below
    [minLength] either: the segment gets its request. *)
Example buildLine_nan_segment :
  exists l,
    buildLine 2 broken_line (named "Main St") =
      Ok {| ls_labels := [l]; ls_sampled := [0] |} /\
    segment_length (anchor1 l) (anchor2 l) = S754_nan /\
    F32.leb minLength (segment_length (anchor1 l) (anchor2 l)) = false.
Proof. eexists. repeat split; reflexivity. Qed.

(* ===================================================================== *)
(** * Part V: properties of the batch                                     *)
(* ===================================================================== *)

Section BatchProperties.
Context {FONS : Type} `{!Glfons FONS}.
Context {Label : Type}.
Context (pushTransform_calls :
           Label -> list (fsuint * BufferVert.State) * Label).

(** [disciplined], for operations on the worlds of this section. *)
Abbreviation kept := (@disciplined FONS Label _).

Ltac unfold_M :=
  unfold FontContext_bind, FontContext_release, FontContext_lock,
    FontContext_unlock, set_fons, set_dirtyTransform, set_mesh, resize,
    emit, get_ctx, put_ctx, get_self, put_self, fail;
  unfold mbind, mret, M_bind, M_ret.

Ltac run_world w Hfree :=
  destruct w as [[f lk bd] b tr]; unfold free_world in Hfree;
  cbn in Hfree; destruct Hfree as [-> ->]; unfold_M; cbn.

Lemma transformID_run (_textID : fsuint) (_state : BufferVert.State)
    (w : @World FONS Label) :
  free_world w ->
  transformID _textID _state w =
  (Ok tt, transforms_post [(_textID, _state)] w).
Proof.
  intros Hfree. unfold transformID. run_world w Hfree.
  unfold transforms_post, critical, with_dirty. cbn.
  rewrite orb_true_r. by rewrite <- !app_assoc.
Qed.

Lemma transforms_post_free calls (w : @World FONS Label) :
  free_world (transforms_post calls w).
Proof. done. Qed.

Lemma transforms_post_cons c calls (w : @World FONS Label) :
  transforms_post calls (transforms_post [c] w) =
  transforms_post (c :: calls) w.
Proof.
  unfold transforms_post, with_dirty, transform_fons. cbn.
  rewrite !orb_true_r, <- app_assoc. done.
Qed.

Lemma transforms_post_nil (w : @World FONS Label) :
  free_world w -> transforms_post [] w = w.
Proof.
  intros Hfree. destruct w as [[f lk bd] [buf d mesh ls] tr].
  destruct Hfree as [Hl Hb]. cbn in Hl, Hb. subst.
  unfold transforms_post, with_dirty, free_ctx. cbn.
  by rewrite orb_false_r, app_nil_r.
Qed.

Lemma run_transforms_run calls (w : @World FONS Label) :
  free_world w ->
  run_transforms calls w = (Ok tt, transforms_post calls w).
Proof.
  revert w. induction calls as [|[id st] calls IH]; intros w Hfree.
  - cbn. by rewrite transforms_post_nil.
  - cbn [run_transforms]. unfold mbind, M_bind.
    rewrite transformID_run by done.
    rewrite IH by apply transforms_post_free.
    by rewrite transforms_post_cons.
Qed.
Lemma pushBuffer_run (w : @World FONS Label) :
  free_world w -> pushBuffer w = (Ok tt, pushBuffer_post w).
Proof.
  intros Hfree. unfold pushBuffer, pushBuffer_post.
  destruct w as [[f lk bd] [buf d mesh ls] tr].
  destruct Hfree as [Hl Hb]. cbn in Hl, Hb. subst.
  unfold_M. cbn. destruct d; [|done]. cbn.
  destruct (glfonsUpdateBuffer buf mesh f) as [mesh' f'] eqn:E. cbn.
  unfold critical. by rewrite <- !app_assoc.
Qed.

Lemma pushBuffer_post_free (w : @World FONS Label) :
  free_world w -> free_world (pushBuffer_post w).
Proof.
  intros Hfree. unfold pushBuffer_post.
  by destruct (m_dirtyTransform (self w)).
Qed.

Lemma no_calls_app (c1 c2 : list (fsuint * BufferVert.State)) :
  no_calls (c1 ++ c2) = no_calls c1 && no_calls c2.
Proof. by destruct c1. Qed.

Lemma prepare_loop_run (todo done : list Label) (w : @World FONS Label) :
  free_world w ->
  prepare_loop pushTransform_calls todo done w =
  (Ok (done ++ labels_after pushTransform_calls todo), transforms_post (label_calls pushTransform_calls todo) w).
Proof.
  revert done w. induction todo as [|l todo IH]; intros done w Hfree.
  - cbn. by rewrite app_nil_r, transforms_post_nil.
  - cbn [prepare_loop]. unfold label_calls, labels_after. cbn [fmap list_fmap concat].
    destruct (pushTransform_calls l) as [calls l'] eqn:E. cbn [fst snd].
    unfold mbind, M_bind. rewrite run_transforms_run by done.
    rewrite IH by apply transforms_post_free.
    rewrite <- app_assoc. cbn [app]. f_equal.
    unfold transforms_post, with_dirty, transform_fons, label_calls. cbn.
    rewrite fold_left_app, fmap_app, concat_app, <- app_assoc.
    rewrite no_calls_app, negb_andb, orb_assoc. done.
Qed.

Lemma prepare_run (w : @World FONS Label) :
  free_world w ->
  prepare pushTransform_calls w = (Ok tt, prepare_post pushTransform_calls w).
Proof.
  intros Hfree. unfold prepare, prepare_post.
  unfold mbind at 1 2. unfold M_bind, get_self at 1.
  rewrite prepare_loop_run by done.
  unfold mbind at 1 2. unfold M_bind, get_self, put_self. cbn [app].
  by rewrite pushBuffer_run.
Qed.

Lemma getVerticesSize_run (w : @World FONS Label) :
  free_world w ->
  getVerticesSize w =
  (Ok (count_in w),
   {| ctx := ctx w; self := self w;
      trace := trace w ++ critical (m_fsBuffer (self w)) VerticesSize |}).
Proof.
  intros Hfree. unfold getVerticesSize, count_in. run_world w Hfree.
  unfold critical. by rewrite <- !app_assoc.
Qed.

Lemma compile_run (w : @World FONS Label) :
  free_world w ->
  compile w =
  if count_in w <? 0 then
    (Failed LengthError,
     {| ctx := ctx w; self := self w;
        trace := trace w ++ critical (m_fsBuffer (self w)) VerticesSize |})
  else
    (Ok (compile_contract (count_in w) (pull_in w) (m_mesh (self w))).1,
     {| ctx := ctx w;
        self := with_mesh
                  (compile_contract (count_in w) (pull_in w)
                     (m_mesh (self w))).2 (self w);
        trace := trace w ++
                 compile_events (m_fsBuffer (self w)) (count_in w)
                   (pull_in w) (m_mesh (self w)) |}).
Proof.
  intros Hfree. unfold compile.
  unfold mbind at 1. unfold M_bind at 1.
  rewrite getVerticesSize_run by done.
  unfold compile_events, compile_contract, pull_in.
  generalize (count_in w) as n. intros n.
  destruct w as [[f lk bd] [buf d mesh ls] tr].
  destruct Hfree as [Hl Hb]. cbn in Hl, Hb. subst. cbn.
  destruct (n =? 0) eqn:E0.
  { apply Z.eqb_eq in E0. subst n. done. }
  apply Z.eqb_neq in E0.
  unfold_M. cbn.
  destruct (n <? 0) eqn:Eneg; [done|]. cbn.
  rewrite length_replicate.
  destruct (glfonsVertices buf f (replicate (Z.to_nat n) BufferVert.default))
    as [res vs] eqn:Ep. cbn.
  unfold critical.
  destruct res; cbn; destruct (_ >? 0); cbn; rewrite <- !app_assoc; done.
Qed.

(** ** Traces *)



Lemma monitor_app (m : Monitor) (t1 t2 : list Event) :
  monitor m (t1 ++ t2) =
  match monitor m t1 with Some m' => monitor m' t2 | None => None end.
Proof.
  revert m. induction t1 as [|e t1 IH]; intros m; cbn; [done|].
  destruct (monitor_step m e); [apply IH|done].
Qed.

Lemma well_locked_inv (tr : list Event) :
  well_locked tr = true -> monitor lock_free tr = Some lock_free.
Proof.
  unfold well_locked. destruct (monitor lock_free tr) as [[[] []]|]; done.
Qed.

Lemma well_locked_app (t1 t2 : list Event) :
  well_locked t1 = true -> well_locked t2 = true ->
  well_locked (t1 ++ t2) = true.
Proof.
  intros H1 H2. unfold well_locked. rewrite monitor_app.
  rewrite (well_locked_inv _ H1), (well_locked_inv _ H2). done.
Qed.

Lemma well_locked_critical (buffer : fsuint) (c : GlfonsCall) :
  well_locked (critical buffer c) = true.
Proof. by destruct c. Qed.

Lemma well_locked_transforms (buffer : fsuint)
    (calls : list (fsuint * BufferVert.State)) :
  well_locked (concat ((fun _ => critical buffer Transform) <$> calls))
  = true.
Proof.
  induction calls as [|c calls IH]; [done|].
  cbn [fmap list_fmap concat]. by apply well_locked_app.
Qed.

Lemma well_locked_compile_events buffer count pull mesh :
  well_locked (compile_events buffer count pull mesh) = true.
Proof.
  unfold compile_events.
  apply well_locked_app; [apply well_locked_critical|].
  destruct (count =? 0); [done|].
  apply well_locked_app; [apply well_locked_critical|].
  destruct pull.1, (compile_contract count pull mesh).1; done.
Qed.

(** ** The lock discipline of the operations *)

Lemma pushBuffer_disciplined : kept pushBuffer.
Proof.
  intros w Hfree. rewrite pushBuffer_run by done. cbn [snd].
  unfold pushBuffer_post. destruct (m_dirtyTransform (self w)).
  - eexists. split; [reflexivity|]. split; [apply well_locked_critical|done].
  - exists []. by rewrite app_nil_r.
Qed.

Lemma transformID_disciplined id st : kept (transformID id st).
Proof.
  intros w Hfree. rewrite transformID_run by done. cbn [snd].
  eexists. split; [reflexivity|].
  split; [apply well_locked_transforms|done].
Qed.

Lemma prepare_disciplined : kept (prepare pushTransform_calls).
Proof.
  intros w Hfree. rewrite prepare_run by done. cbn [snd].
  unfold prepare_post.
  set (w1 := with_labels _ _).
  assert (free_world w1) as Hfree1 by done.
  destruct (pushBuffer_disciplined w1 Hfree1) as (tr & Htr & Hwl & Hf).
  rewrite pushBuffer_run in Htr, Hf by done. cbn [snd] in Htr, Hf.
  eexists. split; [|split; [|exact Hf]].
  - rewrite Htr. subst w1. cbn [trace with_labels transforms_post].
    rewrite <- app_assoc. reflexivity.
  - apply well_locked_app; [apply well_locked_transforms|exact Hwl].
Qed.

Lemma getVerticesSize_disciplined : kept getVerticesSize.
Proof.
  intros w Hfree. rewrite getVerticesSize_run by done. cbn [snd].
  eexists. split; [reflexivity|]. split; [apply well_locked_critical|done].
Qed.

Lemma compile_disciplined : kept compile.
Proof.
  intros w Hfree. rewrite compile_run by done.
  destruct (count_in w <? 0); cbn [snd].
  - eexists. split; [reflexivity|].
    split; [apply well_locked_critical|done].
  - eexists. split; [reflexivity|].
    split; [apply well_locked_compile_events|done].
Qed.

Lemma init_disciplined : kept init.
Proof.
  intros w Hfree. unfold init. run_world w Hfree.
  destruct (glfonsBufferCreate f) as [id f'] eqn:E. cbn.
  exists [EvLock; EvGlfons BufferCreate; EvUnlock].
  by rewrite <- !app_assoc.
Qed.

Lemma genTextID_disciplined : kept genTextID.
Proof.
  intros w Hfree. unfold genTextID. run_world w Hfree.
  destruct (glfonsGenText (m_fsBuffer b) f) as [id f'] eqn:E. cbn.
  exists (critical (m_fsBuffer b) GenText).
  unfold critical. by rewrite <- !app_assoc.
Qed.

Lemma rasterize_disciplined _text _id : kept (rasterize _text _id).
Proof.
  intros w Hfree. unfold rasterize. run_world w Hfree.
  destruct (glfonsRasterize (m_fsBuffer b) _id _text f) as [ok f'] eqn:E.
  cbn. exists (critical (m_fsBuffer b) Rasterize).
  unfold critical. by rewrite <- !app_assoc.
Qed.

Lemma getBBox_disciplined _textID : kept (getBBox _textID).
Proof.
  intros w Hfree. unfold getBBox. run_world w Hfree.
  exists (critical (m_fsBuffer b) GetBBox).
  unfold critical. by rewrite <- !app_assoc.
Qed.

(** ** What the other operations emit *)

Lemma init_trace (w : @World FONS Label) :
  free_world w ->
  trace (init w).2 = trace w ++ [EvLock; EvGlfons BufferCreate; EvUnlock] /\
  free_world (init w).2.
Proof.
  intros Hfree. unfold init. run_world w Hfree.
  destruct (glfonsBufferCreate f) as [id f'] eqn:E. cbn.
  by rewrite <- !app_assoc.
Qed.

Lemma genTextID_trace (w : @World FONS Label) :
  free_world w ->
  trace (genTextID w).2 = trace w ++ critical (m_fsBuffer (self w)) GenText /\
  m_fsBuffer (self (genTextID w).2) = m_fsBuffer (self w) /\
  free_world (genTextID w).2.
Proof.
  intros Hfree. unfold genTextID. run_world w Hfree.
  destruct (glfonsGenText (m_fsBuffer b) f) as [id f'] eqn:E. cbn.
  unfold critical. by rewrite <- !app_assoc.
Qed.

Lemma rasterize_trace _text _id (w : @World FONS Label) :
  free_world w ->
  trace (rasterize _text _id w).2
  = trace w ++ critical (m_fsBuffer (self w)) Rasterize /\
  m_fsBuffer (self (rasterize _text _id w).2) = m_fsBuffer (self w) /\
  free_world (rasterize _text _id w).2.
Proof.
  intros Hfree. unfold rasterize. run_world w Hfree.
  destruct (glfonsRasterize (m_fsBuffer b) _id _text f) as [ok f'] eqn:E.
  cbn. unfold critical. by rewrite <- !app_assoc.
Qed.

Lemma getBBox_trace _textID (w : @World FONS Label) :
  free_world w ->
  trace (getBBox _textID w).2
  = trace w ++ critical (m_fsBuffer (self w)) GetBBox /\
  m_fsBuffer (self (getBBox _textID w).2) = m_fsBuffer (self w) /\
  free_world (getBBox _textID w).2.
Proof.
  intros Hfree. unfold getBBox. run_world w Hfree.
  unfold critical. by rewrite <- !app_assoc.
Qed.

Lemma destroy_run (w : @World FONS Label) :
  destroy w =
  (Ok tt,
   {| ctx := {| fons := glfonsBufferDelete (m_fsBuffer (self w))
                          (fons (ctx w));
                locked := locked (ctx w); bound := bound (ctx w) |};
      self := self w;
      trace := trace w ++ [EvGlfons BufferDelete] |}).
Proof. by destruct w as [[f lk bd] b tr]. Qed.

(* ===================================================================== *)
(** * Part VI: the claims on the batch                                    *)
(* ===================================================================== *)


Lemma dirty_pushBuffer_post (w : @World FONS Label) :
  m_dirtyTransform (self (pushBuffer_post w)) = false.
Proof.
  unfold pushBuffer_post.
  by destruct (m_dirtyTransform (self w)) eqn:E.
Qed.


(** ** C4 *)


(** ** C5 *)

(** C5 fails on the destructor: whatever the state, [~TextBatch] calls
    [glfonsBufferDelete] without taking the lock (the state of the lock is
    what it was), so its trace breaks the lock discipline. *)
Theorem destroy_outside_lock (w : @World FONS Label) :
  (destroy w).1 = Ok tt /\
  trace (destroy w).2 = trace w ++ [EvGlfons BufferDelete] /\
  locked (ctx (destroy w).2) = locked (ctx w) /\
  monitor lock_free [EvGlfons BufferDelete] = None /\
  well_locked [EvGlfons BufferDelete] = false.
Proof. rewrite destroy_run. done. Qed.

(** The other operations keep the discipline, [init] included. *)
Lemma operations_disciplined :
  kept init /\
  kept getVerticesSize /\
  kept genTextID /\
  (forall _text _id, kept (rasterize _text _id)) /\
  kept pushBuffer /\
  (forall _textID _state, kept (transformID _textID _state)) /\
  (forall _textID, kept (getBBox _textID)) /\
  kept compile /\
  kept (prepare pushTransform_calls).
Proof.
  split_and?; intros;
    auto using init_disciplined, getVerticesSize_disciplined,
      genTextID_disciplined, rasterize_disciplined, pushBuffer_disciplined,
      transformID_disciplined, getBBox_disciplined, compile_disciplined,
      prepare_disciplined.
Qed.

Lemma destroy_not_disciplined (w : @World FONS Label) :
  free_world w -> ~ kept destroy.
Proof.
  intros Hfree Hd. destruct (Hd w Hfree) as (tr & Htr & Hwl & _).
  rewrite destroy_run in Htr. cbn [snd trace] in Htr.
  apply app_inv_head in Htr. by subst tr.
Qed.

(** ** C6 *)

(** C6: started between two operations, with a count that is not negative,
    [compile] follows the contract: it queries the count in a critical
    section of its own; on a zero count it answers false and leaves the
    mesh alone; else it pulls, in a second critical section, into an array
    of exactly [count] vertices, hands the result to the mesh if and only
    if the pull succeeded, answers false if the mesh then holds no vertex,
    and else compiles the mesh's buffer and answers true. *)
Theorem compile_follows_contract (w : @World FONS Label) :
  free_world w ->
  0 <= count_in w ->
  let count := count_in w in
  let pull := pull_in w in
  let mesh := m_mesh (self w) in
  let buffer := m_fsBuffer (self w) in
  (compile w).1 = Ok (compile_contract count pull mesh).1 /\
  m_mesh (self (compile w).2) = (compile_contract count pull mesh).2 /\
  ctx (compile w).2 = ctx w /\
  trace (compile w).2 = trace w ++ compile_events buffer count pull mesh /\
  well_locked (compile_events buffer count pull mesh) = true /\
  (count = 0 ->
     compile_contract count pull mesh = (false, mesh) /\
     compile_events buffer count pull mesh = critical buffer VerticesSize) /\
  (0 < count ->
     pull = glfonsVertices buffer (fons (ctx w))
              (replicate (Z.to_nat count) BufferVert.default) /\
     Z.of_nat (length (replicate (Z.to_nat count) BufferVert.default))
       = count /\
     let mesh1 := if pull.1 then Mesh.addVertices pull.2 mesh else mesh in
     compile_contract count pull mesh =
       (if Mesh.numVertices mesh1 >? 0
        then (true, Mesh.compileVertexBuffer mesh1)
        else (false, mesh1)) /\
     compile_events buffer count pull mesh =
       critical buffer VerticesSize ++
       critical buffer (Vertices (Z.to_nat count)) ++
       (if pull.1 then [EvAddVertices (length pull.2)] else []) ++
       (if Mesh.numVertices mesh1 >? 0 then [EvCompileVertexBuffer]
        else [])).
Proof.
  intros Hfree Hcount. cbv zeta.
  rewrite compile_run by done.
  destruct (count_in w <? 0) eqn:Eneg; [apply Z.ltb_lt in Eneg; lia|].
  cbn [fst snd ctx self trace with_mesh m_mesh].
  split_and?; try done.
  - apply well_locked_compile_events.
  - intros E0. unfold compile_contract, compile_events. by rewrite E0.
  - intros Hpos. unfold compile_events, compile_contract.
    destruct (count_in w =? 0) eqn:E0; [apply Z.eqb_eq in E0; lia|].
    split_and?; try done.
    + rewrite length_replicate. lia.
    + by destruct (Mesh.numVertices _ >? 0).
Qed.

(** ** C10 *)

(** C10: when the pull of a [compile] call reports failure, the mesh keeps
    the vertices and the vertex count it had, no [addVertices] is made, and
    the answer is decided by the count the mesh had: true, with one more
    [compileVertexBuffer], if it held vertices, and false otherwise. *)
Theorem compile_pull_failure (w : @World FONS Label) :
  free_world w ->
  0 < count_in w ->
  (pull_in w).1 = false ->
  let mesh := m_mesh (self w) in
  let mesh' := m_mesh (self (compile w).2) in
  let held := Mesh.numVertices mesh >? 0 in
  (compile w).1 = Ok held /\
  Mesh.vertices mesh' = Mesh.vertices mesh /\
  Mesh.numVertices mesh' = Mesh.numVertices mesh /\
  Mesh.compiles mesh' = (Mesh.compiles mesh + (if held then 1 else 0))%nat /\
  trace (compile w).2 =
    trace w ++ critical (m_fsBuffer (self w)) VerticesSize ++
    critical (m_fsBuffer (self w)) (Vertices (Z.to_nat (count_in w))) ++
    (if held then [EvCompileVertexBuffer] else []).
Proof.
  intros Hfree Hpos Hpull. cbv zeta.
  rewrite compile_run by done.
  destruct (count_in w <? 0) eqn:Eneg; [apply Z.ltb_lt in Eneg; lia|].
  cbn [fst snd ctx self trace with_mesh m_mesh].
  unfold compile_events, compile_contract. rewrite Hpull.
  destruct (count_in w =? 0) eqn:E0; [apply Z.eqb_eq in E0; lia|].
  destruct (Mesh.numVertices (m_mesh (self w)) >? 0); cbn;
    split_and?; try done; lia.
Qed.

(** ** C9 *)


End BatchProperties.

(** ** Examples on the doubles *)


Lemma compile_follows_contract_witness :
  (compile world_lake).1 = Ok true /\
  Mesh.numVertices (m_mesh (self (compile world_lake).2)) = 24.
Proof.
  destruct (compile_follows_contract world_lake) as (Hr & Hm & _).
  - split; reflexivity.
  - vm_compute. discriminate.
  - split.
    + rewrite Hr. reflexivity.
    + rewrite Hm. reflexivity.
Defined.

Lemma compile_pull_failure_witness :
  (compile world_stale).1 = Ok true /\
  Mesh.vertices (m_mesh (self (compile world_stale).2)) =
    Mesh.vertices (m_mesh (self world_stale)) /\
  Mesh.compiles (m_mesh (self (compile world_stale).2)) = 2%nat.
Proof.
  destruct (compile_pull_failure world_stale) as (Hr & Hv & _ & Hc & _).
  - split; reflexivity.
  - vm_compute. reflexivity.
  - reflexivity.
  - split; [exact Hr|]. split; [exact Hv|]. rewrite Hc. reflexivity.
Defined.



(* ===================================================================== *)
(** * Part VII: further properties of the placement                       *)
(* ===================================================================== *)

(** ** Requests and their builders *)

Lemma foldM_for_each_elem {A : Type} (build : A -> outcome (list TextLabel))
    (l : list A) (acc ls : list TextLabel) (x : TextLabel) :
  foldM (fun acc a => ls ← build a; Ok (acc ++ ls)) l acc = Ok ls ->
  x ∈ ls ->
  x ∈ acc \/ exists a ls', a ∈ l /\ build a = Ok ls' /\ x ∈ ls'.
Proof.
  revert acc. induction l as [|a l IH]; intros acc Hrun Hx; simpl in Hrun.
  - inversion Hrun; subst. by left.
  - destruct (build a) as [ls'| |] eqn:E; simpl in Hrun; try discriminate.
    destruct (IH _ Hrun Hx) as [Hin|(a' & ls'' & Ha' & Hb & Hin)].
    + apply elem_of_app in Hin. destruct Hin as [Hin|Hin]; [by left|].
      right. exists a, ls'. split; [set_solver|done].
    + right. exists a', ls''. split; [set_solver|done].
Qed.

Lemma for_each_elem {A : Type} (build : A -> outcome (list TextLabel))
    (l : list A) (ls : list TextLabel) (x : TextLabel) :
  for_each build l = Ok ls -> x ∈ ls ->
  exists a ls', a ∈ l /\ build a = Ok ls' /\ x ∈ ls'.
Proof.
  intros Hrun Hx.
  destruct (foldM_for_each_elem build l [] ls x Hrun Hx) as [Hin|H]; [|done].
  by apply elem_of_nil in Hin.
Qed.

Lemma buildPolygon_inv (_polygon : Polygon) (_props : Properties) ls l :
  buildPolygon _polygon _props = Ok ls -> l ∈ ls ->
  getString "name" _props = Some (text l) /\
  type l = Label.point /\ anchor1 l = anchor2 l.
Proof.
  unfold buildPolygon. destruct (getString "name" _props) as [name|].
  - destruct (foldM _ _polygon _) as [[c n]| |]; simpl; try discriminate.
    intros H Hin. inversion H; subst.
    apply list_elem_of_singleton in Hin. by subst.
  - intros H Hin. inversion H; subst. by apply elem_of_nil in Hin.
Qed.

Lemma buildPoint_inv (_point : Point) (_props : Properties) ls l :
  buildPoint _point _props = Ok ls -> l ∈ ls ->
  getString "name" _props = Some (text l) /\
  type l = Label.point /\
  anchor1 l = Vec3.to_vec2 _point /\ anchor2 l = Vec3.to_vec2 _point.
Proof.
  unfold buildPoint. destruct (getString "name" _props) as [name|].
  - intros H Hin. inversion H; subst.
    apply list_elem_of_singleton in Hin. by subst.
  - intros H Hin. inversion H; subst. by apply elem_of_nil in Hin.
Qed.

Lemma buildLine_inv fuel (_line : Line) (_props : Properties) st l :
  buildLine fuel _line _props = Ok st -> l ∈ ls_labels st ->
  getString "name" _props = Some (text l) /\
  type l = Label.line /\
  exists i a b,
    i ∈ ls_sampled st /\
    _line !! Z.to_nat i = Some a /\ _line !! Z.to_nat (i + 1) = Some b /\
    anchor1 l = Vec3.to_vec2 a /\ anchor2 l = Vec3.to_vec2 b /\
    F32.ltb (segment_length (Vec3.to_vec2 a) (Vec3.to_vec2 b)) minLength
    = false.
Proof.
  intros Hrun Hin.
  destruct (getString "name" _props) as [name|] eqn:Hn.
  - rewrite (buildLine_labels_sampled _ _ _ _ _ Hn Hrun) in Hin.
    apply list_elem_of_omap in Hin. destruct Hin as (i & Hi & Hc).
    apply candidate_label_inv in Hc.
    destruct Hc as (a & b & Ha & Hb & -> & Hlt). simpl.
    split; [done|]. split; [done|]. exists i, a, b. done.
  - rewrite buildLine_unnamed in Hrun by done.
    inversion Hrun; subst. by apply elem_of_nil in Hin.
Qed.

(** X1: a point feature with a "name" property gets, whatever the fuel,
    exactly one request per point, in the order of the points: of type
    point, with both anchors at the point and the name as text. *)
Theorem add_points (fuel : nat) (_feature : Feature) name :
  geometryType _feature = points ->
  getString "name" (props _feature) = Some name ->
  add fuel _feature = Ok (point_label name <$> f_points _feature) /\
  length (point_label name <$> f_points _feature)
  = length (f_points _feature).
Proof.
  intros Hg Hn. split; [|apply length_fmap].
  unfold add. rewrite Hg.
  rewrite (for_each_ok _ (fun p => [point_label name p])).
  - by rewrite concat_fmap_singleton.
  - intros p _. unfold buildPoint. by rewrite Hn.
Qed.

Lemma add_points_witness :
  add 0 lake =
  Ok [ {| anchor1 := Vec3.to_vec2 (pt 10 20);
          anchor2 := Vec3.to_vec2 (pt 10 20);
          text := "Lake"; type := Label.point |} ].
Proof.
  destruct (add_points 0 lake "Lake") as [H _].
  - reflexivity.
  - reflexivity.
  - exact H.
Defined.

(** X2: whenever [add] returns, every request it has issued carries the
    feature's "name" value as text; for a point or polygon feature it is of
    type point with both anchors at one place (a point of the feature, for
    points); for a line feature it is of type line, anchored at two
    consecutive vertices of one of the feature's lines, the vertex at a
    position [k] and the one at [k + 1]; a feature of another geometry
    type gets no request. *)
Theorem add_labels_shape (fuel : nat) (_feature : Feature) ls l :
  add fuel _feature = Ok ls ->
  l ∈ ls ->
  getString "name" (props _feature) = Some (text l) /\
  match geometryType _feature with
  | points =>
      type l = Label.point /\ anchor1 l = anchor2 l /\
      exists p, p ∈ f_points _feature /\ anchor1 l = Vec3.to_vec2 p
  | polygons => type l = Label.point /\ anchor1 l = anchor2 l
  | lines =>
      type l = Label.line /\
      exists _line (k : nat) a b,
        _line ∈ f_lines _feature /\
        _line !! k = Some a /\ _line !! S k = Some b /\
        anchor1 l = Vec3.to_vec2 a /\ anchor2 l = Vec3.to_vec2 b
  | unknown => False
  end.
Proof.
  unfold add. intros Hrun Hin.
  destruct (geometryType _feature).
  - inversion Hrun; subst. by apply elem_of_nil in Hin.
  - destruct (for_each_elem _ _ _ _ Hrun Hin) as (p & ls' & Hp & Hb & Hl).
    destruct (buildPoint_inv _ _ _ _ Hb Hl) as (Hn & Ht & H1 & H2).
    split; [done|]. split; [done|]. split; [congruence|]. eauto.
  - destruct (for_each_elem _ _ _ _ Hrun Hin) as (ln & ls' & Hp & Hb & Hl).
    destruct (buildLine fuel ln (props _feature)) as [st| |] eqn:E;
      simpl in Hb; try discriminate.
    inversion Hb; subst.
    destruct (buildLine_inv _ _ _ _ _ E Hl)
      as (Hn & Ht & i & a & b & Hi & Ha & Hb' & H1 & H2 & _).
    pose proof (buildLine_sampled_nonneg _ _ _ _ E) as Hpos.
    rewrite Forall_forall in Hpos. apply Hpos in Hi.
    replace (Z.to_nat (i + 1)) with (S (Z.to_nat i)) in Hb' by lia.
    split; [done|]. split; [done|]. exists ln, (Z.to_nat i), a, b. done.
  - destruct (for_each_elem _ _ _ _ Hrun Hin) as (pg & ls' & Hp & Hb & Hl).
    destruct (buildPolygon_inv _ _ _ _ Hb Hl) as (Hn & Ht & H12). done.
Qed.

Lemma add_labels_shape_witness :
  exists (_line : Line) (k : nat) a b,
    _line ∈ f_lines roads /\
    _line !! k = Some a /\ _line !! S k = Some b /\
    Vec3.to_vec2 (pt 0 0) = Vec3.to_vec2 a /\
    Vec3.to_vec2 (pt 1 0) = Vec3.to_vec2 b.
Proof.
  destruct (add_labels_shape 5 roads
              [ {| anchor1 := Vec3.to_vec2 (pt 0 0);
                   anchor2 := Vec3.to_vec2 (pt 1 0);
                   text := "Main St"; type := Label.line |};
                {| anchor1 := Vec3.to_vec2 (pt 0 0);
                   anchor2 := Vec3.to_vec2 (pt 3 4);
                   text := "Main St"; type := Label.line |} ]
              {| anchor1 := Vec3.to_vec2 (pt 0 0);
                 anchor2 := Vec3.to_vec2 (pt 1 0);
                 text := "Main St"; type := Label.line |})
    as (_ & _ & Hex).
  - reflexivity.
  - constructor.
  - exact Hex.
Defined.

(** ** Lines: where the requests go, and how many there are *)

Lemma candidates_values N :
  1 <= N ->
  candidates N = if N =? 1 then 0 else if N =? 2 then 1 else 2.
Proof.
  intros HN. unfold candidates, cdiv.
  destruct (N =? 1) eqn:E1; [apply Z.eqb_eq in E1; by subst|].
  destruct (N =? 2) eqn:E2; [apply Z.eqb_eq in E2; by subst|].
  apply Z.eqb_neq in E1, E2.
  pose proof (Z.div_mod N 2 ltac:(lia)) as Hd.
  pose proof (Z.mod_pos_bound N 2 ltac:(lia)) as Hm.
  assert (Z.max 1 (N / 2) = N / 2) as -> by lia.
  symmetry. apply Z.div_unique with (r := N - 2 - (N / 2)); lia.
Qed.

Lemma line_samples_values N :
  1 <= N ->
  line_samples N =
  if N =? 1 then [] else if N =? 2 then [0] else [0; N / 2].
Proof.
  intros HN. unfold line_samples. rewrite candidates_values by done.
  destruct (N =? 1); [done|]. destruct (N =? 2) eqn:E2; [done|].
  simpl. by rewrite Z.add_0_l.
Qed.

Lemma length_omap_le {A B : Type} (f : A -> option B) (l : list A) :
  (length (omap f l) <= length l)%nat.
Proof.
  induction l as [|a l IH]; [done|].
  change (omap f (a :: l))
    with (match f a with Some y => y :: omap f l | None => omap f l end).
  destruct (f a); simpl; lia.
Qed.

Lemma line_labels_length name (_line : Line) :
  1 <= Z.of_nat (length _line) ->
  (length (line_labels name _line) <= 2)%nat.
Proof.
  intros HN. unfold line_labels.
  etrans; [apply length_omap_le|].
  rewrite line_samples_values by done.
  destruct (_ =? 1); [simpl; lia|]. destruct (_ =? 2); simpl; lia.
Qed.

Lemma buildLine_run fuel (_line : Line) (_props : Properties) name :
  getString "name" _props = Some name ->
  line_in_range fuel _line ->
  buildLine fuel _line _props =
  Ok {| ls_labels := line_labels name _line;
        ls_sampled := line_samples (Z.of_nat (length _line)) |}.
Proof.
  intros Hn [HN Hfuel]. unfold line_labels, line_samples.
  set (N := Z.of_nat (length _line)) in *.
  pose proof (cdiv_spec (N - 1) (Z.max 1 (N / 2)) ltac:(lia)) as Hc.
  fold (candidates N) in Hc.
  unfold buildLine. rewrite Hn. fold N.
  rewrite skipOffset_in_range by lia.
  destruct (decide (N = 1)) as [E1|E1].
  - destruct fuel as [|fuel]; [lia|].
    simpl. fold N. rewrite E1. reflexivity.
  - assert (1 <= N / 2 <= INT_MAX) as Hs.
    { split; [apply Z.div_le_lower_bound; lia|].
      apply Z.div_le_upper_bound; lia. }
    assert (Z.max 1 (N / 2) = N / 2) as Emax by lia.
    rewrite Emax in Hc.
    pose proof (buildLine_loop_run _line name (N / 2) HN Hs fuel 0
                  {| ls_labels := []; ls_sampled := [] |}) as Hrun.
    cbv zeta in Hrun. fold N in Hrun. rewrite Z.sub_0_r in Hrun.
    unfold candidates. rewrite Emax.
    unfold candidates in Hc. rewrite Emax in Hc.
    rewrite Hrun; [done|lia|nia].
Qed.

(** X3: a line with a "name" property and between 1 and INT_MAX vertices
    makes [buildLine] return (given fuel for N iterations); it samples no
    segment when N = 1, the segment at vertex 0 when N = 2, and else
    exactly two segments, the one at vertex 0 and the one at the middle
    vertex floor(N/2); so a line gets at most two requests, those of the
    sampled segments that are not shorter than [minLength]. *)
Theorem buildLine_two_samples (fuel : nat) (_line : Line)
    (_props : Properties) name :
  let N := Z.of_nat (length _line) in
  getString "name" _props = Some name ->
  line_in_range fuel _line ->
  buildLine fuel _line _props =
    Ok {| ls_labels := omap (candidate_label _line name) (line_samples N);
          ls_sampled := line_samples N |} /\
  line_samples N
    = (if N =? 1 then [] else if N =? 2 then [0] else [0; N / 2]) /\
  (length (omap (candidate_label _line name) (line_samples N)) <= 2)%nat.
Proof.
  intros N Hn Hr. split; [|split].
  - by apply buildLine_run.
  - apply line_samples_values. apply Hr.
  - apply line_labels_length. apply Hr.
Qed.

Lemma buildLine_two_samples_witness :
  buildLine 5 road (named "Main St") =
    Ok {| ls_labels := omap (candidate_label road "Main St") [0; 2];
          ls_sampled := [0; 2] |}.
Proof.
  destruct (buildLine_two_samples 5 road (named "Main St") "Main St")
    as (Hrun & _ & _).
  - reflexivity.
  - split; [vm_compute; split; discriminate|simpl; lia].
  - exact Hrun.
Defined.

Lemma lines_labels_length fuel name (lns : list Line) :
  (forall ln, ln ∈ lns -> line_in_range fuel ln) ->
  (length (concat (line_labels name <$> lns)) <= 2 * length lns)%nat.
Proof.
  induction lns as [|ln lns IH]; intros Hr; [simpl; lia|].
  rewrite fmap_cons. cbn [concat]. rewrite length_app, length_cons.
  assert (length (line_labels name ln) <= 2)%nat as Hl.
  { apply line_labels_length. apply (Hr ln). set_solver. }
  assert (length (concat (line_labels name <$> lns)) <= 2 * length lns)%nat
    as Hrest by (apply IH; intros; apply Hr; set_solver).
  lia.
Qed.

(** X5: for a line feature with a "name" property all of whose lines hold
    between 1 and INT_MAX vertices, [add] returns (given fuel for the
    longest line) the requests of its lines, line after line, and these are
    at most twice as many as the lines. *)
Theorem add_lines_bounded (fuel : nat) (_feature : Feature) name :
  geometryType _feature = lines ->
  getString "name" (props _feature) = Some name ->
  Forall (line_in_range fuel) (f_lines _feature) ->
  add fuel _feature = Ok (concat (line_labels name <$> f_lines _feature)) /\
  (length (concat (line_labels name <$> f_lines _feature))
   <= 2 * length (f_lines _feature))%nat.
Proof.
  intros Hg Hn Hr. rewrite Forall_forall in Hr. split.
  - unfold add. rewrite Hg.
    apply for_each_ok. intros ln Hin.
    rewrite (buildLine_run _ _ _ name) by auto. done.
  - apply (lines_labels_length fuel). intros ln Hin. by apply Hr.
Qed.

Lemma add_lines_bounded_witness :
  exists ls, add 5 roads = Ok ls /\ (length ls <= 4)%nat.
Proof.
  destruct (add_lines_bounded 5 roads "Main St") as [Hrun Hlen].
  - reflexivity.
  - reflexivity.
  - repeat constructor; try (vm_compute; discriminate); simpl; lia.
  - eexists. split; [exact Hrun|exact Hlen].
Defined.

(** ** Lines: no request on a segment without extent *)

Lemma F32_sub_diag (x : float) :
  F32.is_finite x = true -> F32.sub x x = F32.zero.
Proof.
  destruct x as [[]| | |s m e]; try done. intros _.
  unfold F32.sub, SFsub. cbv zeta. rewrite Z.sub_diag. reflexivity.
Qed.

Lemma segment_length_diag (p : vec2) :
  F32.is_finite (Vec2.x p) = true -> F32.is_finite (Vec2.y p) = true ->
  segment_length p p = F32.zero.
Proof.
  intros Hx Hy. unfold segment_length, Vec2.length, Vec2.dot, Vec2.mul,
    Vec2.sub. simpl. by rewrite !F32_sub_diag.
Qed.

(** X4: on a line whose vertices have finite coordinates, [buildLine]
    never issues a request whose two anchors coincide: a sampled segment
    between two vertices at the same place has length zero and is
    skipped. *)
Theorem buildLine_distinct_anchors (fuel : nat) (_line : Line)
    (_props : Properties) st l :
  Forall finite_point _line ->
  buildLine fuel _line _props = Ok st ->
  l ∈ ls_labels st ->
  anchor1 l <> anchor2 l.
Proof.
  intros Hfin Hrun Hin Heq.
  destruct (buildLine_inv _ _ _ _ _ Hrun Hin)
    as (_ & _ & i & a & b & _ & Ha & Hb & H1 & H2 & Hlt).
  rewrite <- H1, <- H2, <- Heq in Hlt.
  rewrite Forall_forall in Hfin.
  assert (finite_point a) as [Hx Hy]
    by (apply Hfin; eapply list_elem_of_lookup_2; eassumption).
  rewrite segment_length_diag in Hlt; [discriminate|by rewrite H1..].
Qed.

Lemma buildLine_distinct_anchors_witness :
  Vec3.to_vec2 (pt 0 0) <> Vec3.to_vec2 (pt 1 0).
Proof.
  apply (buildLine_distinct_anchors 5 road (named "Main St")
           {| ls_labels := omap (candidate_label road "Main St") [0; 2];
              ls_sampled := [0; 2] |}
           {| anchor1 := Vec3.to_vec2 (pt 0 0);
              anchor2 := Vec3.to_vec2 (pt 1 0);
              text := "Main St"; type := Label.line |}).
  - repeat constructor.
  - reflexivity.
  - constructor.
Defined.

(** ** Polygons: rings do not matter *)

(** X14: [buildPolygon] looks at the vertices of a polygon in sequence and
    not at its rings: two polygons whose rings, laid end to end, give the
    same vertex sequence get the same outcome, request or fault. *)
Theorem buildPolygon_ring_structure (p1 p2 : Polygon)
    (_props : Properties) :
  concat p1 = concat p2 ->
  buildPolygon p1 _props = buildPolygon p2 _props.
Proof.
  intros Heq. unfold buildPolygon.
  destruct (getString "name" _props) as [name|]; [|done].
  by rewrite !foldM_concat, Heq.
Qed.

Lemma buildPolygon_ring_structure_witness :
  buildPolygon [[pt 0 0; pt 1 0]; [pt 1 1; pt 0 1]] (named "Square") =
  buildPolygon unit_square (named "Square").
Proof. apply buildPolygon_ring_structure. reflexivity. Defined.

(* ===================================================================== *)
(** * Part VIII: further properties of the batch                          *)
(* ===================================================================== *)

(** ** Traces and the bound buffer *)

Lemma owner_monitor_app buffer (m : Owner) (t1 t2 : list Event) :
  owner_monitor buffer m (t1 ++ t2) =
  match owner_monitor buffer m t1 with
  | Some m' => owner_monitor buffer m' t2
  | None => None
  end.
Proof.
  revert m. induction t1 as [|e t1 IH]; intros m; cbn; [done|].
  destruct (owner_step buffer m e); [apply IH|done].
Qed.

Lemma well_owned_inv buffer (tr : list Event) :
  well_owned buffer tr = true ->
  owner_monitor buffer owner_free tr = Some owner_free.
Proof.
  unfold well_owned.
  destruct (owner_monitor buffer owner_free tr) as [[[] [?|]]|]; done.
Qed.

Lemma well_owned_app buffer (t1 t2 : list Event) :
  well_owned buffer t1 = true -> well_owned buffer t2 = true ->
  well_owned buffer (t1 ++ t2) = true.
Proof.
  intros H1 H2. unfold well_owned. rewrite owner_monitor_app.
  rewrite (well_owned_inv _ _ H1), (well_owned_inv _ _ H2). done.
Qed.

Lemma well_owned_critical (buffer : fsuint) (c : GlfonsCall) :
  well_owned buffer (critical buffer c) = true.
Proof.
  unfold well_owned, critical. cbn. rewrite Z.eqb_refl. cbn.
  rewrite Z.eqb_refl, orb_true_r. done.
Qed.

Lemma well_owned_transforms (buffer : fsuint)
    (calls : list (fsuint * BufferVert.State)) :
  well_owned buffer (concat ((fun _ => critical buffer Transform) <$> calls))
  = true.
Proof.
  induction calls as [|c calls IH]; [done|].
  cbn [fmap list_fmap concat].
  apply well_owned_app; [apply well_owned_critical|exact IH].
Qed.

Lemma well_owned_compile_events buffer count pull mesh :
  well_owned buffer (compile_events buffer count pull mesh) = true.
Proof.
  unfold compile_events.
  apply well_owned_app; [apply well_owned_critical|].
  destruct (count =? 0); [done|].
  apply well_owned_app; [apply well_owned_critical|].
  destruct pull.1, (compile_contract count pull mesh).1; done.
Qed.

Lemma well_owned_no_bind buffer :
  well_owned buffer [EvLock; EvGlfons BufferCreate; EvUnlock] = true.
Proof. done. Qed.

Section BatchExtras.
Context {FONS : Type} `{!Glfons FONS}.
Context {Label : Type}.
Context (pushTransform_calls :
           Label -> list (fsuint * BufferVert.State) * Label).

(** [on_own_buffer], for operations on the worlds of this section. *)
Abbreviation owned := (@on_own_buffer FONS Label _).

(** X6: started between two operations, each of [getVerticesSize],
    [genTextID], [rasterize], [pushBuffer], [transformID], [getBBox],
    [compile] and [prepare] keeps the lock discipline and works on the
    batch's own buffer: the only handle it binds is [m_fsBuffer], every
    call into the glyph library that works on the bound buffer is made
    under the lock with [m_fsBuffer] bound, the handle is left as it was,
    and the operation ends with the lock free and nothing bound, whatever
    its outcome. [init] binds no buffer: it takes the lock, creates the
    buffer and releases the lock. *)
Theorem operations_own_buffer :
  (forall w : @World FONS Label, free_world w ->
     trace (init w).2
     = trace w ++ [EvLock; EvGlfons BufferCreate; EvUnlock] /\
     (forall buffer,
        well_owned buffer [EvLock; EvGlfons BufferCreate; EvUnlock] = true) /\
     well_locked [EvLock; EvGlfons BufferCreate; EvUnlock] = true /\
     free_world (init w).2) /\
  owned getVerticesSize /\
  owned genTextID /\
  (forall _text _id, owned (rasterize _text _id)) /\
  owned pushBuffer /\
  (forall _textID _state, owned (transformID _textID _state)) /\
  (forall _textID, owned (getBBox _textID)) /\
  owned compile /\
  owned (prepare pushTransform_calls).
Proof.
  split_and?.
  - intros w Hfree. destruct (init_trace w Hfree) as [Ht Hf].
    split_and?; try done.
  - intros w Hfree. rewrite getVerticesSize_run by done. cbn [snd].
    eexists. split; [reflexivity|].
    split; [apply well_owned_critical|].
    split; [apply well_locked_critical|done].
  - intros w Hfree. destruct (genTextID_trace w Hfree) as (Ht & Hb & Hf).
    eexists. split; [exact Ht|].
    split; [apply well_owned_critical|].
    split; [apply well_locked_critical|done].
  - intros _text _id w Hfree.
    destruct (rasterize_trace _text _id w Hfree) as (Ht & Hb & Hf).
    eexists. split; [exact Ht|].
    split; [apply well_owned_critical|].
    split; [apply well_locked_critical|done].
  - intros w Hfree. rewrite (pushBuffer_run w) by done. cbn [snd].
    unfold pushBuffer_post. destruct (m_dirtyTransform (self w)).
    + eexists. split; [reflexivity|].
      split; [apply well_owned_critical|].
      split; [apply well_locked_critical|done].
    + exists []. by rewrite app_nil_r.
  - intros _textID _state w Hfree.
    rewrite transformID_run by done. cbn [snd].
    eexists. split; [reflexivity|].
    split; [apply well_owned_transforms|].
    split; [apply well_locked_transforms|done].
  - intros _textID w Hfree.
    destruct (getBBox_trace _textID w Hfree) as (Ht & Hb & Hf).
    eexists. split; [exact Ht|].
    split; [apply well_owned_critical|].
    split; [apply well_locked_critical|done].
  - intros w Hfree. rewrite compile_run by done.
    destruct (count_in w <? 0); cbn [snd].
    + eexists. split; [reflexivity|].
      split; [apply well_owned_critical|].
      split; [apply well_locked_critical|done].
    + eexists. split; [reflexivity|].
      split; [apply well_owned_compile_events|].
      split; [apply well_locked_compile_events|done].
  - intros w Hfree. rewrite prepare_run by done. cbn [snd].
    unfold prepare_post, pushBuffer_post.
    cbn [self with_labels transforms_post m_dirtyTransform with_dirty
         m_fsBuffer m_mesh ctx fons trace m_labels].
    destruct (m_dirtyTransform (self w)
              || negb (no_calls
                         (label_calls pushTransform_calls
                            (m_labels (self w)))));
      cbn [self trace m_fsBuffer with_dirty with_mesh].
    + eexists. split; [by rewrite <- app_assoc|].
      split; [apply well_owned_app;
                [apply well_owned_transforms|apply well_owned_critical]|].
      split; [apply well_locked_app;
                [apply well_locked_transforms|apply well_locked_critical]|].
      done.
    + eexists. split; [reflexivity|].
      split; [apply well_owned_transforms|].
      split; [apply well_locked_transforms|done].
Qed.

(** X7: started between two operations, [compile] leaves the font context,
    the buffer handle, the dirty flag and the labels as they were and ends
    between two operations, whatever its outcome; it answers true exactly
    when it has compiled the mesh's GPU buffer, which it does only on a
    mesh that reports vertices. *)
Theorem compile_frame (w : @World FONS Label) :
  free_world w ->
  let w' := (compile w).2 in
  ctx w' = ctx w /\
  m_fsBuffer (self w') = m_fsBuffer (self w) /\
  m_dirtyTransform (self w') = m_dirtyTransform (self w) /\
  m_labels (self w') = m_labels (self w) /\
  free_world w' /\
  exists tr,
    trace w' = trace w ++ tr /\
    ((compile w).1 = Ok true <-> EvCompileVertexBuffer ∈ tr) /\
    ((compile w).1 = Ok true -> 0 < Mesh.numVertices (m_mesh (self w'))).
Proof.
  intros Hfree. cbv zeta. rewrite compile_run by done.
  destruct (count_in w <? 0) eqn:Eneg; cbn [fst snd ctx self trace].
  - split_and?; try done.
    eexists. split; [reflexivity|]. split; [|done].
    rewrite list_elem_of_In. simpl. intuition discriminate.
  - unfold with_mesh. cbn [m_fsBuffer m_dirtyTransform m_labels m_mesh].
    split_and?; try done.
    eexists. split; [reflexivity|].
    unfold compile_events, compile_contract, critical.
    rewrite list_elem_of_In.
    destruct (count_in w =? 0).
    { simpl. intuition discriminate. }
    destruct (pull_in w) as [[] vs]; cbn [fst snd];
      destruct (Mesh.numVertices _ >? 0) eqn:Ev; cbn [fst snd];
      simpl; try apply Z.gtb_lt in Ev;
      intuition (try discriminate; auto).
Qed.

(** X8: when the context reports a negative vertex count, [compile] ends
    in the length error of [vertices.resize], after the count query alone:
    no pull is made, the mesh is untouched and the lock is free. *)
Theorem compile_negative_count (w : @World FONS Label) :
  free_world w ->
  count_in w < 0 ->
  compile w =
  (Failed LengthError,
   {| ctx := ctx w; self := self w;
      trace := trace w ++ critical (m_fsBuffer (self w)) VerticesSize |}).
Proof.
  intros Hfree Hneg. rewrite compile_run by done.
  destruct (count_in w <? 0) eqn:E; [done|]. apply Z.ltb_ge in E. lia.
Qed.

(** X9: started between two operations, [prepare] returns after pushing
    the transforms of the labels in the order of [m_labels]: the glyph
    library has received the [glfonsTransform] calls of the first label,
    then those of the second, and so on, each in a critical section of its
    own, and only then, if the flag was set or a transform was pushed, one
    [glfonsUpdateBuffer], which also gives the mesh; the flag ends clear
    and each label is left as its [pushTransform] left it. *)
Theorem prepare_order (w : @World FONS Label) :
  free_world w ->
  let labels := m_labels (self w) in
  let calls := label_calls pushTransform_calls labels in
  let buffer := m_fsBuffer (self w) in
  let transformed := transform_fons buffer (fons (ctx w)) calls in
  let flush := m_dirtyTransform (self w) || negb (no_calls calls) in
  let w' := (prepare pushTransform_calls w).2 in
  (prepare pushTransform_calls w).1 = Ok tt /\
  calls = concat ((fun l => (pushTransform_calls l).1) <$> labels) /\
  fons (ctx w') =
    (if flush
     then (glfonsUpdateBuffer buffer (m_mesh (self w)) transformed).2
     else transformed) /\
  m_mesh (self w') =
    (if flush
     then (glfonsUpdateBuffer buffer (m_mesh (self w)) transformed).1
     else m_mesh (self w)) /\
  m_dirtyTransform (self w') = false /\
  m_fsBuffer (self w') = buffer /\
  m_labels (self w') = labels_after pushTransform_calls labels /\
  length (m_labels (self w')) = length labels /\
  trace w' =
    trace w ++
    concat ((fun _ => critical buffer Transform) <$> calls) ++
    (if flush then critical buffer UpdateBuffer else []).
Proof.
  intros Hfree. cbv zeta. rewrite prepare_run by done. cbn [fst snd].
  unfold prepare_post, pushBuffer_post.
  cbn [self with_labels transforms_post m_dirtyTransform with_dirty
       m_fsBuffer m_mesh ctx fons trace m_labels].
  destruct (m_dirtyTransform (self w)
            || negb (no_calls
                       (label_calls pushTransform_calls (m_labels (self w)))))
    eqn:Eflush;
    cbn [self trace m_labels with_dirty with_mesh with_labels transforms_post
         ctx fons free_ctx m_mesh m_dirtyTransform m_fsBuffer].
  - split_and?; try done.
    + unfold labels_after. apply length_fmap.
    + by rewrite <- app_assoc.
  - split_and?; try done.
    + unfold labels_after. apply length_fmap.
    + by rewrite app_nil_r.
Qed.

(** X10: started between two operations, a second [pushBuffer] in a row
    changes nothing: no lock is taken, no call is made, the world is what
    the first one left; so does any [pushBuffer] on a batch whose flag is
    clear. *)
Theorem pushBuffer_idempotent (w : @World FONS Label) :
  free_world w ->
  pushBuffer (pushBuffer w).2 = (Ok tt, (pushBuffer w).2) /\
  (m_dirtyTransform (self w) = false -> pushBuffer w = (Ok tt, w)).
Proof.
  intros Hfree. rewrite (pushBuffer_run w) by done. cbn [snd]. split.
  - rewrite pushBuffer_run by (by apply pushBuffer_post_free).
    unfold pushBuffer_post at 1. by rewrite dirty_pushBuffer_post.
  - intros Hd. unfold pushBuffer_post. by rewrite Hd.
Qed.

End BatchExtras.

Lemma compile_frame_witness :
  ctx (compile world_lake).2 = ctx world_lake /\
  m_dirtyTransform (self (compile world_lake).2) = false.
Proof.
  destruct (compile_frame world_lake) as (Hc & _ & Hd & _).
  - split; reflexivity.
  - split; [exact Hc|exact Hd].
Defined.

Lemma operations_disciplined_witness :
  exists tr,
    trace (compile world_lake).2 = trace world_lake ++ tr /\
    well_locked tr = true /\
    free_world (compile world_lake).2.
Proof.
  destruct (operations_disciplined (FONS := TestFons.t)
              TestLabel.pushTransform)
    as (_ & _ & _ & _ & _ & _ & _ & Hc & _).
  apply (Hc world_lake). split; reflexivity.
Defined.

Lemma compile_negative_count_witness :
  (compile world_broken).1 = Failed LengthError /\
  m_mesh (self (compile world_broken).2) = Mesh.empty.
Proof.
  rewrite (compile_negative_count world_broken).
  - split; reflexivity.
  - split; reflexivity.
  - reflexivity.
Defined.

Lemma operations_own_buffer_witness :
  exists tr,
    trace (compile world_lake).2 = trace world_lake ++ tr /\
    well_owned (m_fsBuffer (self world_lake)) tr = true /\
    well_locked tr = true /\
    m_fsBuffer (self (compile world_lake).2) = m_fsBuffer (self world_lake) /\
    free_world (compile world_lake).2.
Proof.
  destruct (operations_own_buffer (FONS := TestFons.t)
              TestLabel.pushTransform)
    as (_ & _ & _ & _ & _ & _ & _ & Hc & _).
  apply (Hc world_lake). split; reflexivity.
Defined.

Lemma prepare_order_witness :
  fons (ctx (prepare TestLabel.pushTransform world_log).2) = [1; 2] /\
  trace (prepare TestLabel.pushTransform world_log).2 =
    critical 1 Transform ++ critical 1 Transform ++ critical 1 UpdateBuffer /\
  TestLabel.dirty <$>
    m_labels (self (prepare TestLabel.pushTransform world_log).2)
  = [false; false].
Proof.
  destruct (prepare_order TestLabel.pushTransform world_log)
    as (_ & _ & Hf & _ & _ & _ & Hl & _ & Ht).
  - split; reflexivity.
  - split; [rewrite Hf|split; [rewrite Ht|rewrite Hl]]; reflexivity.
Defined.

Lemma pushBuffer_idempotent_witness :
  pushBuffer world_lake = (Ok tt, world_lake).
Proof.
  destruct (pushBuffer_idempotent world_lake) as [_ H].
  - split; reflexivity.
  - apply H. reflexivity.
Defined.

(* ===================================================================== *)
(** * Part IX: properties of draw                                         *)
(* ===================================================================== *)

Lemma land_255 (x : Z) : Z.land x 255 = x mod 256.
Proof. change 255 with (Z.ones 8). by rewrite Z.land_ones. Qed.

Lemma land_255_range (x : Z) : 0 <= Z.land x 255 <= 255.
Proof.
  rewrite land_255. pose proof (Z.mod_pos_bound x 256 ltac:(lia)). lia.
Qed.

Lemma elem_of_bytes (k : Z) : 0 <= k <= 255 -> k ∈ bytes.
Proof. intros Hk. unfold bytes. apply elem_of_seqZ. lia. Qed.

(** The table of the 256 channel values, checked by evaluation. *)
Lemma channel_table_checked :
  table_in_unit channel_table = true /\
  table_increases channel_table = true.
Proof. split; vm_compute; reflexivity. Qed.

Lemma forallb_elem_of {A : Type} (f : A -> bool) (l : list A) (x : A) :
  forallb f l = true -> x ∈ l -> f x = true.
Proof.
  intros Hall Hin. rewrite forallb_forall in Hall.
  apply Hall. by apply list_elem_of_In.
Qed.

Lemma elem_of_channel_table (k : Z) :
  0 <= k <= 255 -> (k, channel k) ∈ channel_table.
Proof.
  intros Hk. unfold channel_table.
  apply (list_elem_of_fmap_2 (fun k => (k, channel k))).
  by apply elem_of_bytes.
Qed.

Lemma channel_byte_in_unit (k : Z) :
  0 <= k <= 255 ->
  F32.is_finite (channel k) = true /\
  F32.leb F32.zero (channel k) = true /\
  F32.leb (channel k) F32.one = true.
Proof.
  intros Hk.
  pose proof (forallb_elem_of _ channel_table (k, channel k)
                (proj1 channel_table_checked)
                (elem_of_channel_table k Hk)) as H.
  cbv beta in H. cbn [fst snd] in H.
  apply andb_prop in H. destruct H as [H H3].
  apply andb_prop in H. destruct H as [H1 H2]. done.
Qed.

(** X11: for a colour packed as 0xAARRGGBB, [draw] makes its two passes in
    this order: neutral grey 0.2 with threshold 0.3 and a mesh draw, then
    the colour (RR/255, GG/255, BB/255) with threshold 0.8 and a mesh draw;
    the byte AA plays no part. *)
Theorem draw_unpacks_colour (a r g b : Z) :
  0 <= r <= 255 -> 0 <= g <= 255 -> 0 <= b <= 255 ->
  draw (pack_colour a r g b) =
  [ SetUniformf "u_color" [literal 2 10; literal 2 10; literal 2 10];
    SetUniformf "u_sdf" [literal 3 10];
    MeshDraw;
    SetUniformf "u_color" [channel r; channel g; channel b];
    SetUniformf "u_sdf" [literal 8 10];
    MeshDraw ].
Proof.
  intros Hr Hg Hb. unfold draw, pack_colour.
  rewrite !land_255, !Z.shiftr_div_pow2 by lia.
  change (2 ^ 24) with 16777216. change (2 ^ 16) with 65536.
  change (2 ^ 8) with 256.
  set (c := a * 16777216 + r * 65536 + g * 256 + b).
  assert (c / 65536 = a * 256 + r) as ->
    by (symmetry; apply Z.div_unique with (r := g * 256 + b); lia).
  assert (c / 256 = a * 65536 + r * 256 + g) as ->
    by (symmetry; apply Z.div_unique with (r := b); lia).
  assert ((a * 256 + r) mod 256 = r) as ->
    by (symmetry; apply Z.mod_unique with (q := a); lia).
  assert ((a * 65536 + r * 256 + g) mod 256 = g) as ->
    by (symmetry; apply Z.mod_unique with (q := a * 256 + r); lia).
  assert (c mod 256 = b) as ->
    by (symmetry; apply Z.mod_unique with (q := a * 65536 + r * 256 + g);
        lia).
  reflexivity.
Qed.

Lemma draw_unpacks_colour_witness :
  draw 16744448 =
  [ SetUniformf "u_color" [literal 2 10; literal 2 10; literal 2 10];
    SetUniformf "u_sdf" [literal 3 10];
    MeshDraw;
    SetUniformf "u_color" [channel 255; channel 128; channel 0];
    SetUniformf "u_sdf" [literal 8 10];
    MeshDraw ].
Proof.
  change 16744448 with (pack_colour 0 255 128 0).
  apply draw_unpacks_colour; lia.
Defined.

(** X12: whatever the colour value, the three channels [draw] sends for
    its second pass are finite floats between 0 and 1. *)
Theorem draw_channels_in_unit (m_color : Z) :
  exists r g b,
    draw m_color =
    [ SetUniformf "u_color" [literal 2 10; literal 2 10; literal 2 10];
      SetUniformf "u_sdf" [literal 3 10];
      MeshDraw;
      SetUniformf "u_color" [r; g; b];
      SetUniformf "u_sdf" [literal 8 10];
      MeshDraw ] /\
    Forall (fun v => F32.is_finite v = true /\
                     F32.leb F32.zero v = true /\
                     F32.leb v F32.one = true) [r; g; b].
Proof.
  do 3 eexists. split; [reflexivity|].
  repeat constructor; apply channel_byte_in_unit, land_255_range.
Qed.

(** X13: the channel value of a byte grows strictly with the byte, from
    0.0 for 0 to 1.0 for 255: two different bytes never give the same
    intensity. *)
Theorem channel_increasing (j k : Z) :
  0 <= j -> j < k -> k <= 255 ->
  F32.ltb (channel j) (channel k) = true /\
  channel 0 = F32.zero /\ channel 255 = F32.one.
Proof.
  intros Hj Hjk Hk. split; [|split; vm_compute; reflexivity].
  pose proof (forallb_elem_of _ channel_table (j, channel j)
                (proj2 channel_table_checked)
                (elem_of_channel_table j ltac:(lia))) as Hrow.
  cbv beta in Hrow.
  pose proof (forallb_elem_of _ channel_table (k, channel k) Hrow
                (elem_of_channel_table k ltac:(lia))) as Hcell.
  cbv beta in Hcell. cbn [fst snd] in Hcell.
  destruct (j <? k) eqn:E; [exact Hcell|]. apply Z.ltb_ge in E. lia.
Qed.

Lemma channel_increasing_witness :
  F32.ltb (channel 127) (channel 128) = true.
Proof. apply (channel_increasing 127 128); lia. Defined.
